(** * analytics.py: classification and tabulation of security events

    A shallow embedding of [analytics.py].  The script loads a JSON
    document of events, derives an [event_type] label from every
    [signature] with a regular expression, counts the labels, parses the
    [timestamp] column, and writes the enriched table as CSV.

    Python strings are modelled by [string]: a code point outside ASCII
    is a sequence of bytes above 127, none of which is an uppercase
    letter or a hyphen, so the regular expression of the script stops at
    it exactly as it stops at the code point. *)

From Stdlib Require Import Bool Arith Lia ZArith List Ascii String.
From Stdlib Require Import Sorted Permutation.
Import ListNotations.

Local Open Scope string_scope.
Set Warnings "-register-all".

(** ** Python values *)

(** The values the script handles: what [json.load] builds, the
    floating-point NaN pandas puts in an empty cell, and the date-time
    cells [pd.to_datetime] produces.  A float is kept as the text of its
    literal; a timestamp is, as in pandas, a count of nanoseconds since
    1970-01-01T00:00:00. *)
Inductive pyval : Type :=
| PNone
| PBool (b : bool)
| PInt (z : Z)
| PFloat (literal : string)
| PNaN
| PStr (s : string)
| PList (items : list pyval)
| PDict (items : list (string * pyval))
| PTimestamp (ns : Z)
| PNaT.

(** ** Exceptions *)

(** The exception classes the script can meet, each with the text
    [str(e)] gives.  [KeyboardInterrupt] stands for the classes that
    derive from [BaseException] only. *)
Inductive exn : Type :=
| FileNotFoundError (msg : string)
| JSONDecodeError (msg : string)
| KeyError (key : string)
| TypeError (msg : string)
| ValueError (msg : string)
| OtherException (msg : string)
| KeyboardInterrupt.

Inductive result (A : Type) : Type :=
| Ok (a : A)
| Raise (e : exn).

Arguments Ok {A} a.
Arguments Raise {A} e.

Fixpoint mapM {A B : Type} (f : A -> result B) (l : list A) : result (list B) :=
  match l with
  | [] => Ok []
  | a :: l' =>
      match f a with
      | Ok b =>
          match mapM f l' with
          | Ok bs => Ok (b :: bs)
          | Raise e => Raise e
          end
      | Raise e => Raise e
      end
  end.

(** ** Regular expressions *)

Module Re.

(** The fragment of Python's [re] syntax the script uses. *)
Inductive regex : Type :=
| Bol                              (* ^ *)
| Lit (c : ascii)                  (* a literal character *)
| Range (lo hi : ascii)            (* [lo-hi] *)
| Cat (r1 r2 : regex)              (* r1r2 *)
| Opt (r : regex)                  (* r? , greedy *)
| Star (r : regex)                 (* r* , greedy *)
| Group (r : regex).               (* (r) , capturing group 1 *)

(** [r+] is one [r] and then [r*]. *)
Definition Plus (r : regex) : regex := Cat r (Star r).

(** Span of group 1, as positions in the subject. *)
Definition capture : Type := option (nat * nat).

Definition in_range (lo hi c : ascii) : bool :=
  Ascii.leb lo c && Ascii.leb c hi.

Section Matcher.
Context {A : Type}.

(** What is matched after the current sub-pattern. *)
Definition cont : Type := string -> capture -> option A.

(** Greedy repetition: try one more round of [body], and give the rest
    to [k] only when that fails.  A round that consumes nothing ends
    the loop. *)
Fixpoint star_loop (body : string -> capture -> cont -> option A)
    (k : cont) (fuel : nat) (s : string) (g : capture) : option A :=
  match fuel with
  | O => k s g
  | S fuel' =>
      match body s g (fun s1 g1 =>
               if (length s1 <? length s)%nat
               then star_loop body k fuel' s1 g1
               else None) with
      | Some x => Some x
      | None => k s g
      end
  end.

(** Backtracking matcher.  [n] is the length of the subject, [s] what
    is left of it, so that the current position is [n - length s]. *)
Fixpoint rmatch (n : nat) (r : regex) (s : string) (g : capture)
    (k : cont) {struct r} : option A :=
  match r with
  | Bol => if (n - length s =? 0)%nat then k s g else None
  | Lit c =>
      match s with
      | String c' s' => if Ascii.eqb c c' then k s' g else None
      | EmptyString => None
      end
  | Range lo hi =>
      match s with
      | String c' s' => if in_range lo hi c' then k s' g else None
      | EmptyString => None
      end
  | Cat r1 r2 => rmatch n r1 s g (fun s1 g1 => rmatch n r2 s1 g1 k)
  | Opt r1 =>
      match rmatch n r1 s g k with
      | Some x => Some x
      | None => k s g
      end
  | Star r1 =>
      star_loop (fun s0 g0 k0 => rmatch n r1 s0 g0 k0) k (length s) s g
  | Group r1 =>
      rmatch n r1 s g
        (fun s1 _ => k s1 (Some (n - length s, n - length s1)))
  end.
End Matcher.

(** A match object: the subject, where the match ends, and group 1. *)
Record match_obj : Type := {
  subject : string;
  span_end : nat;
  group1 : capture
}.

(** [re.match(pattern, s)]: the pattern is tried at position 0 only. *)
Definition re_match (r : regex) (s : string) : option match_obj :=
  rmatch (length s) r s None
    (fun rest g =>
       Some {| subject := s;
               span_end := length s - length rest;
               group1 := g |}).

(** [m.group(1)]: the captured text, [None] for a group that took no
    part in the match. *)
Definition group (m : match_obj) : pyval :=
  match group1 m with
  | Some (i, j) => PStr (substring i (j - i) (subject m))
  | None => PNone
  end.

End Re.

(** ** The classifier *)

Definition upper : Re.regex := Re.Range "A" "Z".

(** The pattern of the script, written with blanks between its parts:
    [^ ( [A-Z]+ -? [A-Z]* )]. *)
Definition event_type_pattern : Re.regex :=
  Re.Cat Re.Bol
    (Re.Group
       (Re.Cat (Re.Plus upper)
          (Re.Cat (Re.Opt (Re.Lit "-")) (Re.Star upper)))).

(** [extract_event_type(signature)].  [re.match] accepts a string only;
    the cells of a table can hold anything. *)
Definition extract_event_type (signature : pyval) : result pyval :=
  match signature with
  | PStr s =>
      match Re.re_match event_type_pattern s with
      | Some m => Ok (Re.group m)
      | None => Ok (PStr "UNKNOWN")
      end
  | _ => Raise (TypeError "expected string or bytes-like object")
  end.

(** ** Tables *)

(** A pandas [DataFrame] as the script uses it: a number of rows and the
    columns in their order, every column holding one cell per row. *)
Record DataFrame : Type := {
  nrows : nat;
  columns : list (string * list pyval)
}.

Definition column_names (df : DataFrame) : list string :=
  map fst (columns df).

Fixpoint lookup {V : Type} (key : string) (items : list (string * V)) : option V :=
  match items with
  | [] => None
  | (k, v) :: items' => if String.eqb key k then Some v else lookup key items'
  end.

(** [str(e)]; a [KeyError] shows the repr of its key. *)
Definition str_exn (e : exn) : string :=
  match e with
  | FileNotFoundError msg | JSONDecodeError msg | TypeError msg
  | ValueError msg | OtherException msg => msg
  | KeyError key => "'" ++ key ++ "'"
  | KeyboardInterrupt => ""
  end.

(** [df[key]] *)
Definition getitem (df : DataFrame) (key : string) : result (list pyval) :=
  match lookup key (columns df) with
  | Some col => Ok col
  | None => Raise (KeyError key)
  end.

Fixpoint replace_column (key : string) (col : list pyval)
    (cols : list (string * list pyval)) : list (string * list pyval) :=
  match cols with
  | [] => [(key, col)]
  | (k, c) :: cols' =>
      if String.eqb key k then (k, col) :: cols'
      else (k, c) :: replace_column key col cols'
  end.

(** [df[key] = col]: an existing column is overwritten where it stands, a
    new one is added last. *)
Definition setitem (df : DataFrame) (key : string) (col : list pyval) : DataFrame :=
  {| nrows := nrows df; columns := replace_column key col (columns df) |}.

(** Keys of the records in the order they are first met. *)
Fixpoint add_keys (seen : list string) (keys : list string) : list string :=
  match keys with
  | [] => seen
  | k :: keys' =>
      if existsb (String.eqb k) seen then add_keys seen keys'
      else add_keys (seen ++ [k]) keys'
  end.

Definition record_keys (records : list (list (string * pyval))) : list string :=
  fold_left (fun seen rec => add_keys seen (map fst rec)) records [].

(** A field a record lacks gives the cell NaN. *)
Definition cell_of (key : string) (rec : list (string * pyval)) : pyval :=
  match lookup key rec with
  | Some v => v
  | None => PNaN
  end.

(** What the dtype of its column makes of a cell.  A string stays as it
    is, whatever else the column holds, and NaN stays NaN.  What becomes
    of another value depends on the dtype pandas infers for the whole
    column (an integer beside a missing value becomes a float, a null
    beside numbers becomes NaN): [infer] gives it, from the column and
    the value. *)
Definition cast_cell (infer : list pyval -> pyval -> pyval)
    (col : list pyval) (v : pyval) : pyval :=
  match v with
  | PStr _ | PNaN => v
  | _ => infer col v
  end.

(** [pd.DataFrame(records)] for a list of dicts: one row for each
    record, one column for each key, each column with the dtype inferred
    for it. *)
Definition frame_of_records (infer : list pyval -> pyval -> pyval)
    (records : list (list (string * pyval))) : DataFrame :=
  {| nrows := List.length records;
     columns := map (fun key =>
                       let col := map (cell_of key) records in
                       (key, map (cast_cell infer col) col))
                    (record_keys records) |}.

Fixpoint as_records (items : list pyval) : option (list (list (string * pyval))) :=
  match items with
  | [] => Some []
  | PDict rec :: items' =>
      match as_records items' with
      | Some recs => Some (rec :: recs)
      | None => None
      end
  | _ :: _ => None
  end.

(** Null cells, as [pd.isna] sees them. *)
Definition isna (v : pyval) : bool :=
  match v with
  | PNone | PNaN | PNaT => true
  | _ => false
  end.

(** Equality of labels.  Python compares strings character by character,
    and strings are the only labels [extract_event_type] produces; other
    scalars are compared by their written form. *)
Definition label_eqb (a b : pyval) : bool :=
  match a, b with
  | PStr s, PStr t => String.eqb s t
  | PInt x, PInt y => Z.eqb x y
  | PBool x, PBool y => Bool.eqb x y
  | PFloat x, PFloat y => String.eqb x y
  | PTimestamp x, PTimestamp y => Z.eqb x y
  | _, _ => false
  end.

Definition hashable (v : pyval) : bool :=
  match v with
  | PList _ | PDict _ => false
  | _ => true
  end.

(** One more occurrence of [v] in a table of counts kept in the order of
    first occurrence. *)
Fixpoint count_one (v : pyval) (table : list (pyval * nat)) : list (pyval * nat) :=
  match table with
  | [] => [(v, 1)]
  | (w, n) :: table' =>
      if label_eqb v w then (w, S n) :: table'
      else (w, n) :: count_one v table'
  end.

Fixpoint insert_desc (e : pyval * nat) (sorted : list (pyval * nat)) : list (pyval * nat) :=
  match sorted with
  | [] => [e]
  | e' :: sorted' =>
      if (snd e' <=? snd e)%nat then e :: e' :: sorted'
      else e' :: insert_desc e sorted'
  end.

Definition sort_desc (table : list (pyval * nat)) : list (pyval * nat) :=
  fold_right insert_desc [] table.

(** [col.value_counts()]: null cells are left out, the labels come most
    frequent first. *)
Definition value_counts (col : list pyval) : result (list (pyval * nat)) :=
  if forallb hashable col
  then Ok (sort_desc
             (fold_left (fun table v => count_one v table)
                (filter (fun v => negb (isna v)) col) []))
  else Raise (TypeError "unhashable type").

(** ** Date-times *)

Module Datetime.

Local Open Scope Z_scope.

Definition digit (c : ascii) : option Z :=
  let n := Z.of_nat (nat_of_ascii c) in
  if (48 <=? n) && (n <=? 57) then Some (n - 48) else None.

(** The number written by the first [n] characters of [s], all of them
    digits, and what follows them. *)
Fixpoint number (n : nat) (acc : Z) (s : string) : option (Z * string) :=
  match n with
  | O => Some (acc, s)
  | S n' =>
      match s with
      | String c s' =>
          match digit c with
          | Some d => number n' (10 * acc + d) s'
          | None => None
          end
      | EmptyString => None
      end
  end.

Definition expect (c : ascii) (s : string) : option string :=
  match s with
  | String c' s' => if Ascii.eqb c c' then Some s' else None
  | EmptyString => None
  end.

Definition leap (y : Z) : bool :=
  ((y mod 4 =? 0) && negb (y mod 100 =? 0)) || (y mod 400 =? 0).

Definition days_in_month (y m : Z) : Z :=
  if m =? 2 then (if leap y then 29 else 28)
  else if (m =? 4) || (m =? 6) || (m =? 9) || (m =? 11) then 30
  else 31.

(** Days from 1970-01-01 to the given day of the proleptic Gregorian
    calendar. *)
Definition days_from_civil (y m d : Z) : Z :=
  let y' := if m <=? 2 then y - 1 else y in
  let era := y' / 400 in
  let yoe := y' - era * 400 in
  let doy := (153 * (if 2 <? m then m - 3 else m + 9) + 2) / 5 + d - 1 in
  let doe := yoe * 365 + yoe / 4 - yoe / 100 + doy in
  era * 146097 + doe - 719468.

Definition ns_per_second : Z := 1000000000.
Definition ns_per_hour : Z := 3600 * ns_per_second.

(** The layout [YYYY-MM-DDTHH:MM:SS], with a blank accepted in place of
    the [T]: the nanoseconds since the epoch, when every field is in
    range. *)
Definition parse_iso8601 (s : string) : option Z :=
  match number 4 0 s with
  | Some (y, s1) =>
  match expect "-" s1 with
  | Some s2 =>
  match number 2 0 s2 with
  | Some (m, s3) =>
  match expect "-" s3 with
  | Some s4 =>
  match number 2 0 s4 with
  | Some (d, s5) =>
  match (match expect "T" s5 with Some r => Some r | None => expect " " s5 end) with
  | Some s6 =>
  match number 2 0 s6 with
  | Some (hh, s7) =>
  match expect ":" s7 with
  | Some s8 =>
  match number 2 0 s8 with
  | Some (mi, s9) =>
  match expect ":" s9 with
  | Some s10 =>
  match number 2 0 s10 with
  | Some (ss, EmptyString) =>
      if (1 <=? m) && (m <=? 12) && (1 <=? d) && (d <=? days_in_month y m)
         && (hh <=? 23) && (mi <=? 59) && (ss <=? 59)
      then Some ((((days_from_civil y m d * 24 + hh) * 60 + mi) * 60 + ss)
                 * ns_per_second)
      else None
  | _ => None end
  | None => None end
  | None => None end
  | None => None end
  | None => None end
  | None => None end
  | None => None end
  | None => None end
  | None => None end
  | None => None end
  | None => None end.

(** A timestamp is a signed 64-bit count; the least value is NaT. *)
Definition in_bounds (ns : Z) : bool :=
  (- 2 ^ 63 <? ns) && (ns <? 2 ^ 63).

(** [Timestamp.hour] *)
Definition hour (ns : Z) : Z := (ns / ns_per_hour) mod 24.

End Datetime.

(** [pd.to_datetime] on one cell, given what pandas does with a value
    that is not a string of the layout above ([other]: a timestamp, no
    timestamp, or an exception).  A null cell becomes NaT. *)
Definition to_datetime_cell (other : pyval -> result (option Z)) (v : pyval)
    : result pyval :=
  let general :=
    match other v with
    | Ok (Some ns) => Ok (PTimestamp ns)
    | Ok None => Ok PNaT
    | Raise e => Raise e
    end in
  match v with
  | PNone | PNaN | PNaT => Ok PNaT
  | PTimestamp ns => Ok (PTimestamp ns)
  | PStr s =>
      match Datetime.parse_iso8601 s with
      | Some ns =>
          if Datetime.in_bounds ns then Ok (PTimestamp ns)
          else Raise (ValueError "Out of bounds nanosecond timestamp")
      | None => general
      end
  | _ => general
  end.

(** [.dt.hour] on one cell of a date-time column: NaT has no hour. *)
Definition dt_hour_cell (v : pyval) : result pyval :=
  match v with
  | PTimestamp ns => Ok (PInt (Datetime.hour ns))
  | PNaT => Ok PNaN
  | _ => Raise (OtherException "Can only use .dt accessor with datetimelike values")
  end.

(** ** The world of a run *)

(** The calls into matplotlib, seaborn and the file system that produce
    no value the script looks at. *)
Inductive stage : Type :=
| Draw (what : string)
| Savefig (name : string)
| Show
| ToCsv (name : string)
| Write (name : string).

(** What the script does not decide: the files present, the JSON parser,
    the parts of pandas outside the shapes modelled above, what the
    dtype inferred for a column makes of a value that is not a string,
    and whether a library call fails on the table it is given. *)
Record world : Type := {
  file_text : string -> option string;
  json_loads : string -> pyval + string;
  frame_of_other : pyval -> result DataFrame;
  infer_cell : list pyval -> pyval -> pyval;
  datetime_of_other : pyval -> result (option Z);
  fault : stage -> DataFrame -> option exn
}.

(** What a CSV file is written from: the header and the rows of cells.
    The text pandas makes of them (the form of a value, quoting, line
    breaks) is not modelled, and so nothing here reads a file back. *)
Record csv_file : Type := {
  header : list string;
  rows : list (list pyval)
}.

(** What stands under a file name: a file that was opened for writing
    and not yet completed, whose content is unknown; an image that
    [savefig] completed; the table [to_csv] completed. *)
Inductive artifact : Type :=
| Opened
| Image
| Csv (c : csv_file).

Inductive part : Type :=
| Lit (s : string)
| Val (v : pyval).

(** One call of [print]. *)
Inductive output : Type :=
| Print (parts : list part)
| PrintFrame (df : DataFrame)
| PrintCounts (counts : list (pyval * nat)).

(** The script creates one [DataFrame]; every [df] names that object, so
    a column added inside a function is seen by the caller. *)
Record state : Type := {
  console : list output;
  files : list (string * artifact);
  frame : DataFrame
}.

Definition M (A : Type) : Type := state -> result A * state.

Definition ret {A : Type} (a : A) : M A := fun st => (Ok a, st).

Definition raise {A : Type} (e : exn) : M A := fun st => (Raise e, st).

Definition bind {A B : Type} (m : M A) (f : A -> M B) : M B :=
  fun st =>
    match m st with
    | (Ok a, st') => f a st'
    | (Raise e, st') => (Raise e, st')
    end.

Notation "x <- m ;; k" := (bind m (fun x => k))
  (at level 61, m at next level, right associativity).
Notation "m ;; k" := (bind m (fun _ => k))
  (at level 61, right associativity).

Definition lift {A : Type} (r : result A) : M A :=
  match r with
  | Ok a => ret a
  | Raise e => raise e
  end.

Fixpoint forM_ {A : Type} (l : list A) (f : A -> M unit) : M unit :=
  match l with
  | [] => ret tt
  | a :: l' => f a ;; forM_ l' f
  end.

Definition print (o : output) : M unit :=
  fun st => (Ok tt, {| console := console st ++ [o];
                       files := files st;
                       frame := frame st |}).

Definition get_frame : M DataFrame := fun st => (Ok (frame st), st).

Definition put_frame (df : DataFrame) : M unit :=
  fun st => (Ok tt, {| console := console st;
                       files := files st;
                       frame := df |}).

(** The files written so far, in the order they were created; a name
    stands for one file, so writing it again replaces what it held. *)
Fixpoint update (name : string) (a : artifact)
    (fs : list (string * artifact)) : list (string * artifact) :=
  match fs with
  | [] => [(name, a)]
  | (n, b) :: fs' =>
      if String.eqb name n then (n, a) :: fs'
      else (n, b) :: update name a fs'
  end.

Definition write_file (name : string) (a : artifact) : M unit :=
  fun st => (Ok tt, {| console := console st;
                       files := update name a (files st);
                       frame := frame st |}).

Definition get_column (key : string) : M (list pyval) :=
  df <- get_frame ;; lift (getitem df key).

Definition set_column (key : string) (col : list pyval) : M unit :=
  df <- get_frame ;; put_frame (setitem df key col).

(** A library call that may fail. *)
Definition lib (W : world) (s : stage) : M unit :=
  df <- get_frame ;;
  match fault W s df with
  | Some e => raise e
  | None => ret tt
  end.

(** ** The script *)

Definition nl : string := String "010"%char EmptyString.

Fixpoint repeat_string (s : string) (n : nat) : string :=
  match n with
  | O => EmptyString
  | S n' => s ++ repeat_string s n'
  end.

Definition rule : string := nl ++ repeat_string "=" 50 ++ nl.

(** [json.load] of the text of [filename]. *)
Definition json_load (W : world) (filename : string) : result pyval :=
  match file_text W filename with
  | None =>
      Raise (FileNotFoundError
               ("[Errno 2] No such file or directory: '" ++ filename ++ "'"))
  | Some text =>
      match json_loads W text with
      | inl data => Ok data
      | inr msg => Raise (JSONDecodeError msg)
      end
  end.

(** [data[key]] for a string key. *)
Definition subscript (data : pyval) (key : string) : result pyval :=
  match data with
  | PDict items =>
      match lookup key items with
      | Some v => Ok v
      | None => Raise (KeyError key)
      end
  | PList _ => Raise (TypeError "list indices must be integers or slices, not str")
  | PStr _ => Raise (TypeError "string indices must be integers")
  | _ => Raise (TypeError "object is not subscriptable")
  end.

(** [pd.DataFrame(events)] *)
Definition pd_DataFrame (W : world) (events : pyval) : result DataFrame :=
  match events with
  | PList items =>
      match as_records items with
      | Some records => Ok (frame_of_records (infer_cell W) records)
      | None => frame_of_other W events
      end
  | _ => frame_of_other W events
  end.

Definition load_json_data (W : world) (filename : string) : M unit :=
  data <- lift (json_load W filename) ;;
  events <- lift (subscript data "events") ;;
  df <- lift (pd_DataFrame W events) ;;
  put_frame df.

(** [df.head()] *)
Definition head (df : DataFrame) : DataFrame :=
  {| nrows := Nat.min 5 (nrows df);
     columns := map (fun kc => (fst kc, firstn 5 (snd kc))) (columns df) |}.

(** [df[df['event_type'] == event_type]['signature'].head(2).tolist()] *)
Definition examples_of (event_type : pyval) (signatures types : list pyval)
    : list pyval :=
  firstn 2
    (map fst
       (filter (fun st => label_eqb (snd st) event_type)
          (combine signatures types))).

Definition analyze_security_events (W : world) (filename : string)
    : M (list (pyval * nat)) :=
  load_json_data W filename ;;
  print (Print [Lit "Первые 5 строк данных:"]) ;;
  df <- get_frame ;;
  print (PrintFrame (head df)) ;;
  print (Print [Lit rule]) ;;
  signatures <- get_column "signature" ;;
  types <- lift (mapM extract_event_type signatures) ;;
  set_column "event_type" types ;;
  types <- get_column "event_type" ;;
  event_counts <- lift (value_counts types) ;;
  print (Print [Lit "Распределение типов событий:"]) ;;
  print (PrintCounts event_counts) ;;
  print (Print [Lit rule]) ;;
  print (Print [Lit "Примеры signature для каждого типа:"]) ;;
  forM_ (map fst event_counts) (fun event_type =>
    types <- get_column "event_type" ;;
    signatures <- get_column "signature" ;;
    print (Print [Lit nl; Val event_type; Lit ":"]) ;;
    forM_ (examples_of event_type signatures types) (fun ex =>
      print (Print [Lit "  - "; Val ex]))) ;;
  ret event_counts.

(** The two statements both plotting functions run on the table:
    [df['timestamp'] = pd.to_datetime(df['timestamp'])] and
    [df['hour'] = df['timestamp'].dt.hour]. *)
Definition add_hour (W : world) : M unit :=
  stamps <- get_column "timestamp" ;;
  parsed <- lift (mapM (to_datetime_cell (datetime_of_other W)) stamps) ;;
  set_column "timestamp" parsed ;;
  stamps <- get_column "timestamp" ;;
  hours <- lift (mapM dt_hour_cell stamps) ;;
  set_column "hour" hours.

(** [savefig] can fail before it opens the file, and once the file is
    open, while the image is written into it: the file then stays. *)
Definition savefig (W : world) (name : string) : M unit :=
  lib W (Savefig name) ;;
  write_file name Opened ;;
  lib W (Write name) ;;
  write_file name Image.

(** The grouped counts by hour and type only feed the drawing calls. *)
Definition plot_event_distribution (W : world)
    (event_counts : list (pyval * nat)) : M unit :=
  lib W (Draw "bar") ;;
  lib W (Draw "pie") ;;
  add_hour W ;;
  lib W (Draw "hourly") ;;
  savefig W "event_type_distribution.png" ;;
  savefig W "hourly_event_distribution.png" ;;
  lib W Show.

Definition seaborn_visualization (W : world)
    (event_counts : list (pyval * nat)) : M unit :=
  add_hour W ;;
  lib W (Draw "lineplot") ;;
  lib W (Draw "boxplot") ;;
  savefig W "seaborn_event_analysis.png" ;;
  lib W Show.

(** The header and the rows [to_csv(index=False)] is given to write:
    the column names, and the cells of each row in column order. *)
Definition csv_of (df : DataFrame) : csv_file :=
  {| header := column_names df;
     rows := map (fun i => map (fun kc => nth i (snd kc) PNaN) (columns df))
                 (seq 0 (nrows df)) |}.

(** [DataFrame.to_csv] can fail before it opens the file, and once the
    file is open, while the rows are written: the file then stays, with
    what was written so far. *)
Definition to_csv (W : world) (name : string) : M unit :=
  lib W (ToCsv name) ;;
  write_file name Opened ;;
  lib W (Write name) ;;
  df <- get_frame ;;
  write_file name (Csv (csv_of df)).

(** The classes named by the [except] clauses of [main]. *)
Inductive exc_class : Type :=
| CFileNotFoundError
| CJSONDecodeError
| CKeyError
| CException.

Definition isinstance (e : exn) (c : exc_class) : bool :=
  match c, e with
  | CFileNotFoundError, FileNotFoundError _ => true
  | CJSONDecodeError, JSONDecodeError _ => true
  | CKeyError, KeyError _ => true
  | CException, KeyboardInterrupt => false
  | CException, _ => true
  | _, _ => false
  end.

(** [try: body except c1: h1 except c2: h2 ...]: the first clause whose
    class the exception belongs to handles it; with none, it goes on. *)
Fixpoint handle (handlers : list (exc_class * (exn -> M unit))) (e : exn)
    : M unit :=
  match handlers with
  | [] => raise e
  | (c, h) :: handlers' => if isinstance e c then h e else handle handlers' e
  end.

Definition try_except (body : M unit)
    (handlers : list (exc_class * (exn -> M unit))) : M unit :=
  fun st =>
    match body st with
    | (Ok a, st') => (Ok a, st')
    | (Raise e, st') => handle handlers e st'
    end.

Definition filename : string := "events.json".

Definition msg_not_found : string :=
  "Ошибка: Файл '" ++ filename ++ "' не найден!".
Definition msg_bad_json : string :=
  "Ошибка: Файл '" ++ filename ++ "' содержит некорректный JSON!".
Definition msg_missing_key (e : exn) : string :=
  "Ошибка: В данных отсутствует ключ " ++ str_exn e.
Definition msg_other (e : exn) : string :=
  "Произошла ошибка: " ++ str_exn e.

Definition main_body (W : world) : M unit :=
  event_counts <- analyze_security_events W filename ;;
  print (Print [Lit (nl ++ "Строим графики распределения...")]) ;;
  plot_event_distribution W event_counts ;;
  print (Print [Lit (nl ++ "Дополнительная визуализация с Seaborn...")]) ;;
  seaborn_visualization W event_counts ;;
  to_csv W "processed_security_events.csv" ;;
  print (Print [Lit (nl ++ "Обработанные данные сохранены в 'processed_security_events.csv'")]).

Definition main (W : world) : M unit :=
  try_except (main_body W)
    [ (CFileNotFoundError, fun _ => print (Print [Lit msg_not_found]));
      (CJSONDecodeError, fun _ => print (Print [Lit msg_bad_json]));
      (CKeyError, fun e => print (Print [Lit (msg_missing_key e)]));
      (CException, fun e => print (Print [Lit (msg_other e)])) ].

(** The process starts with nothing printed, nothing written and no
    table. *)
Definition initial : state :=
  {| console := []; files := [];
     frame := {| nrows := 0; columns := [] |} |}.

(** ** Vocabulary of the properties *)

Definition is_upper (c : ascii) : bool := Re.in_range "A" "Z" c.

Definition is_hyphen (c : ascii) : bool := Ascii.eqb "-" c.

Definition starts_with_upper (s : string) : bool :=
  match s with
  | String c _ => is_upper c
  | EmptyString => false
  end.

Definition starts_with_hyphen (s : string) : bool :=
  match s with
  | String c _ => is_hyphen c
  | EmptyString => false
  end.

Fixpoint all_upper (s : string) : bool :=
  match s with
  | String c s' => is_upper c && all_upper s'
  | EmptyString => true
  end.

Fixpoint only_upper_or_hyphen (s : string) : bool :=
  match s with
  | String c s' => (is_upper c || is_hyphen c) && only_upper_or_hyphen s'
  | EmptyString => true
  end.

(** The longest run of uppercase letters [s] starts with, and the rest. *)
Fixpoint take_upper (s : string) : string :=
  match s with
  | String c s' => if is_upper c then String c (take_upper s') else EmptyString
  | EmptyString => EmptyString
  end.

Fixpoint drop_upper (s : string) : string :=
  match s with
  | String c s' => if is_upper c then drop_upper s' else s
  | EmptyString => EmptyString
  end.

(** What the pattern captures in a subject that starts with an uppercase
    letter: the uppercase run, then a hyphen standing right after it
    together with the uppercase run after that hyphen. *)
Definition captured (s : string) : string :=
  match drop_upper s with
  | String c s' =>
      if is_hyphen c then take_upper s ++ String c (take_upper s')
      else take_upper s
  | EmptyString => take_upper s
  end.

(** The part of the pattern after the first run: [-? [A-Z]*]. *)
Definition tail_pattern : Re.regex :=
  Re.Cat (Re.Opt (Re.Lit "-")) (Re.Star upper).

(** What is left of the subject after the captured part. *)
Definition remainder (s : string) : string :=
  match drop_upper s with
  | String c s' => if is_hyphen c then drop_upper s' else drop_upper s
  | EmptyString => EmptyString
  end.

(** Uppercase letters, hyphen-segmented: one or more segments of one or
    more uppercase letters each, with one hyphen between neighbours.
    [in_segment] tells that the character before was a letter. *)
Fixpoint segmented_from (in_segment : bool) (s : string) : bool :=
  match s with
  | EmptyString => in_segment
  | String c s' =>
      if is_upper c then segmented_from true s'
      else if is_hyphen c then in_segment && segmented_from false s'
      else false
  end.

Definition hyphen_segmented (s : string) : bool := segmented_from false s.

(** The prefixes of [s], shortest first. *)
Fixpoint prefixes (s : string) : list string :=
  EmptyString ::
  match s with
  | String c s' => map (String c) (prefixes s')
  | EmptyString => []
  end.

(** The entire leading run of [s]: its longest prefix that is
    hyphen-segmented uppercase letters. *)
Definition leading_run (s : string) : string :=
  last (filter hyphen_segmented (prefixes s)) EmptyString.

(** The [except] clause an exception reaches, and the line it prints. *)
Definition taxonomy (e : exn) : exc_class :=
  match e with
  | FileNotFoundError _ => CFileNotFoundError
  | JSONDecodeError _ => CJSONDecodeError
  | KeyError _ => CKeyError
  | _ => CException
  end.

Definition message (e : exn) : string :=
  match taxonomy e with
  | CFileNotFoundError => msg_not_found
  | CJSONDecodeError => msg_bad_json
  | CKeyError => msg_missing_key e
  | CException => msg_other e
  end.

(** The libraries raise exceptions that derive from [Exception]. *)
Definition raises_exceptions (W : world) : Prop :=
  (forall s df e, fault W s df = Some e -> isinstance e CException = true) /\
  (forall v e, frame_of_other W v = Raise e -> isinstance e CException = true) /\
  (forall v e, datetime_of_other W v = Raise e -> isinstance e CException = true).

(** The table [load_json_data] builds. *)
Definition loaded (W : world) : result DataFrame :=
  match json_load W filename with
  | Ok data =>
      match subscript data "events" with
      | Ok events => pd_DataFrame W events
      | Raise e => Raise e
      end
  | Raise e => Raise e
  end.

(** The [events] array of the input document, when it is an array of
    objects. *)
Definition input_events (W : world) : option (list (list (string * pyval))) :=
  match json_load W filename with
  | Ok data =>
      match subscript data "events" with
      | Ok (PList items) => as_records items
      | _ => None
      end
  | Raise _ => None
  end.

(** A cell of a table and of a CSV file, by column name and row. *)
Definition cell (df : DataFrame) (key : string) (i : nat) : option pyval :=
  match lookup key (columns df) with
  | Some col => Some (nth i col PNaN)
  | None => None
  end.

Fixpoint index_of (key : string) (names : list string) : option nat :=
  match names with
  | [] => None
  | k :: names' =>
      if String.eqb key k then Some 0
      else option_map S (index_of key names')
  end.

Definition csv_cell (c : csv_file) (key : string) (i : nat) : option pyval :=
  match index_of key (header c), nth_error (rows c) i with
  | Some j, Some row => nth_error row j
  | _, _ => None
  end.

Definition total (counts : list (pyval * nat)) : nat :=
  list_sum (map snd counts).

(** The table after [analyze_security_events]: the labels of the
    signatures stand in the column [event_type]; [counts] are their
    frequencies. *)
Definition classified (df df' : DataFrame) (counts : list (pyval * nat)) : Prop :=
  exists signatures types,
    getitem df "signature" = Ok signatures /\
    mapM extract_event_type signatures = Ok types /\
    value_counts types = Ok counts /\
    df' = setitem df "event_type" types.

(** The table after the two statements of [add_hour]. *)
Definition hour_added (W : world) (df df' : DataFrame) : Prop :=
  exists stamps parsed hours,
    getitem df "timestamp" = Ok stamps /\
    mapM (to_datetime_cell (datetime_of_other W)) stamps = Ok parsed /\
    mapM dt_hour_cell parsed = Ok hours /\
    df' = setitem (setitem df "timestamp" parsed) "hour" hours.

(** A computation that raises nothing but instances of [Exception]. *)
Definition raises_only_exceptions {A : Type} (m : M A) : Prop :=
  forall st e st', m st = (Raise e, st') -> isinstance e CException = true.

Definition result_raises_only_exceptions {A : Type} (r : result A) : Prop :=
  forall e, r = Raise e -> isinstance e CException = true.

(** Two states with the same table and the same files. *)
Definition keeps_data (st st' : state) : Prop :=
  frame st' = frame st /\ files st' = files st.

(** Every column of a table has one cell per row. *)
Definition well_formed (df : DataFrame) : Prop :=
  Forall (fun kc => List.length (snd kc) = nrows df) (columns df).

Definition is_str (v : pyval) : bool :=
  match v with
  | PStr _ => true
  | _ => false
  end.

(** ** Sample runs *)

Definition sample_document : pyval :=
  PDict [("events", PList [
    PDict [("signature", PStr "PORTSCAN detected on port 22");
           ("timestamp", PStr "2024-01-01T03:15:00");
           ("src", PStr "10.0.0.1")];
    PDict [("signature", PStr "malware.exe executed");
           ("timestamp", PStr "2024-01-01T03:45:00")]])].

(** A world with [events.json] in place and well formed, and libraries
    that do not fail. *)
Definition sample_world : world :=
  {| file_text := fun name => if String.eqb name "events.json" then Some "{...}" else None;
     json_loads := fun _ => inl sample_document;
     frame_of_other := fun _ => Raise (ValueError "DataFrame constructor not properly called!");
     infer_cell := fun _ v => v;
     datetime_of_other := fun _ => Raise (ValueError "Unknown datetime string format");
     fault := fun _ _ => None |}.

(** The same libraries, and no file at all. *)
Definition empty_world : world :=
  {| file_text := fun _ => None;
     json_loads := json_loads sample_world;
     frame_of_other := frame_of_other sample_world;
     infer_cell := infer_cell sample_world;
     datetime_of_other := datetime_of_other sample_world;
     fault := fault sample_world |}.

(** The state of the sample run after [analyze_security_events], and at
    the end of [main_body]. *)
Definition sample_analyzed : state :=
  snd (analyze_security_events sample_world filename initial).

Definition sample_final : state := snd (main_body sample_world initial).

(** ** Further vocabulary *)

Fixpoint count_hyphens (s : string) : nat :=
  match s with
  | String c s' => (if is_hyphen c then 1 else 0) + count_hyphens s'
  | EmptyString => 0
  end.

(** The sample world with another document in [events.json]. *)
Definition world_with (document : pyval) : world :=
  {| file_text := file_text sample_world;
     json_loads := fun _ => inl document;
     frame_of_other := frame_of_other sample_world;
     infer_cell := infer_cell sample_world;
     datetime_of_other := datetime_of_other sample_world;
     fault := fault sample_world |}.

(** How often the label [v] stands in a column. *)
Definition occurrences (v : pyval) (col : list pyval) : nat :=
  List.length (filter (label_eqb v) col).

(** The order of a frequency table: a count is not below the next. *)
Definition by_count_desc (a b : pyval * nat) : Prop := snd b <= snd a.





(** The sample world with a file that is not JSON. *)
Definition world_bad_json : world :=
  {| file_text := file_text sample_world;
     json_loads := fun _ => inr "Expecting value: line 1 column 1 (char 0)";
     frame_of_other := frame_of_other sample_world;
     infer_cell := infer_cell sample_world;
     datetime_of_other := datetime_of_other sample_world;
     fault := fault sample_world |}.

(** Two records, the second without a signature. *)
Definition ragged_records : list (list (string * pyval)) :=
  [ [("signature", PStr "PORTSCAN detected on port 22");
     ("timestamp", PStr "2024-01-01T03:15:00")];
    [("timestamp", PStr "2024-01-01T03:45:00")] ].

Definition ragged_world : world :=
  world_with (PDict [("events", PList (map PDict ragged_records))]).

(** What the loop over the event types prints: for each type its
    heading, then one line for each of its examples. *)
Definition example_lines (signatures types labels : list pyval) : list output :=
  flat_map (fun event_type =>
              Print [Lit nl; Val event_type; Lit ":"] ::
              map (fun ex => Print [Lit "  - "; Val ex])
                  (examples_of event_type signatures types))
           labels.

(** * Properties *)

(** ** Strings *)

Lemma length_app (a b : string) :
  String.length (a ++ b) = String.length a + String.length b.
Proof. induction a as [|c a IH]; simpl; [reflexivity | now rewrite IH]. Qed.

Lemma app_empty_r (a : string) : a ++ "" = a.
Proof. induction a as [|c a IH]; simpl; [reflexivity | now rewrite IH]. Qed.

Lemma app_assoc_s (a b c : string) : (a ++ b) ++ c = a ++ (b ++ c).
Proof. induction a as [|x a IH]; simpl; [reflexivity | now rewrite IH]. Qed.

Lemma substring_app (a b : string) :
  substring 0 (String.length a) (a ++ b) = a.
Proof.
  induction a as [|c a IH]; simpl.
  - destruct b; reflexivity.
  - now rewrite IH.
Qed.

Lemma prefix_app (a b : string) : prefix a (a ++ b) = true.
Proof. apply prefix_correct, substring_app. Qed.

Lemma take_drop_upper (s : string) : take_upper s ++ drop_upper s = s.
Proof.
  induction s as [|c s IH]; simpl; [reflexivity |].
  destruct (is_upper c); simpl; [now rewrite IH | reflexivity].
Qed.

Lemma all_upper_take (s : string) : all_upper (take_upper s) = true.
Proof.
  induction s as [|c s IH]; simpl; [reflexivity |].
  destruct (is_upper c) eqn:E; simpl; [now rewrite E | reflexivity].
Qed.

Lemma drop_upper_starts (s : string) : starts_with_upper (drop_upper s) = false.
Proof.
  induction s as [|c s IH]; simpl; [reflexivity |].
  destruct (is_upper c) eqn:E; simpl; [exact IH | exact E].
Qed.

Lemma drop_upper_id (s : string) :
  starts_with_upper s = false -> drop_upper s = s.
Proof. destruct s as [|c s]; simpl; [reflexivity | now intros ->]. Qed.

Lemma take_upper_nil (s : string) :
  starts_with_upper s = false -> take_upper s = "".
Proof. destruct s as [|c s]; simpl; [reflexivity | now intros ->]. Qed.

Lemma take_upper_app (u rest : string) :
  all_upper u = true -> starts_with_upper rest = false ->
  take_upper (u ++ rest) = u.
Proof.
  induction u as [|c u IH]; simpl; intros Hu Hr.
  - now apply take_upper_nil.
  - apply andb_true_iff in Hu as [Hc Hu]. rewrite Hc. now rewrite IH.
Qed.

Lemma drop_upper_app (u rest : string) :
  all_upper u = true -> starts_with_upper rest = false ->
  drop_upper (u ++ rest) = rest.
Proof.
  induction u as [|c u IH]; simpl; intros Hu Hr.
  - now apply drop_upper_id.
  - apply andb_true_iff in Hu as [Hc Hu]. rewrite Hc. now apply IH.
Qed.

Lemma hyphen_not_upper (c : ascii) : is_hyphen c = true -> is_upper c = false.
Proof. unfold is_hyphen. intros H. apply Ascii.eqb_eq in H. now subst c. Qed.

Lemma captured_remainder (s : string) : captured s ++ remainder s = s.
Proof.
  unfold captured, remainder.
  pose proof (take_drop_upper s) as H.
  destruct (drop_upper s) as [|c r] eqn:E.
  - exact H.
  - destruct (is_hyphen c).
    + rewrite app_assoc_s. simpl. now rewrite take_drop_upper.
    + exact H.
Qed.

Lemma only_upper_or_hyphen_app (a b : string) :
  only_upper_or_hyphen (a ++ b) =
  only_upper_or_hyphen a && only_upper_or_hyphen b.
Proof.
  induction a as [|c a IH]; simpl; [reflexivity |].
  now rewrite IH, andb_assoc.
Qed.

Lemma all_upper_only (s : string) :
  all_upper s = true -> only_upper_or_hyphen s = true.
Proof.
  induction s as [|c s IH]; simpl; [reflexivity |].
  intros H. apply andb_true_iff in H as [-> H]. simpl. now apply IH.
Qed.

Lemma captured_only (s : string) : only_upper_or_hyphen (captured s) = true.
Proof.
  unfold captured. destruct (drop_upper s) as [|c r].
  - apply all_upper_only, all_upper_take.
  - destruct (is_hyphen c) eqn:E.
    + rewrite only_upper_or_hyphen_app. simpl. rewrite E, orb_true_r. simpl.
      now rewrite !all_upper_only by apply all_upper_take.
    + apply all_upper_only, all_upper_take.
Qed.

Lemma captured_nonempty (s : string) :
  starts_with_upper s = true -> captured s <> "".
Proof.
  destruct s as [|c s]; simpl; [discriminate |]. intros Hc.
  unfold captured. simpl. rewrite Hc.
  destruct (drop_upper s) as [|d r]; [discriminate |].
  destruct (is_hyphen d); discriminate.
Qed.

(** ** The matcher on the pattern of the script *)

Section MatcherFacts.
Context {A : Type}.
Variable n : nat.

(** The greedy loop over uppercase letters takes the whole run when
    what follows matches after it. *)
Lemma star_upper_greedy (k : @Re.cont A) (fuel : nat) :
  forall (s : string) (g : Re.capture) (x : A),
    String.length s <= fuel ->
    k (drop_upper s) g = Some x ->
    Re.star_loop (fun s0 g0 k0 => Re.rmatch n upper s0 g0 k0) k fuel s g
    = Some x.
Proof.
  induction fuel as [|fuel IH]; intros s g x Hlen Hk.
  - destruct s; [exact Hk | simpl in Hlen; lia].
  - cbn [Re.star_loop]. destruct s as [|c s].
    + unfold upper at 1. cbn [Re.rmatch]. exact Hk.
    + unfold upper at 1. cbn [Re.rmatch]. fold (is_upper c).
      simpl in Hk. destruct (is_upper c) eqn:Hc; [| exact Hk].
      replace (String.length s <? String.length (String c s))%nat with true
        by (symmetry; apply Nat.ltb_lt; simpl; lia).
      rewrite (IH s g x); [reflexivity | simpl in Hlen; lia | exact Hk].
Qed.

Lemma rmatch_star_upper (k : @Re.cont A) (s : string) (g : Re.capture) (x : A) :
  k (drop_upper s) g = Some x ->
  Re.rmatch n (Re.Star upper) s g k = Some x.
Proof. intros Hk. simpl. now apply star_upper_greedy. Qed.

(** After the first uppercase run: an optional hyphen and a second
    run. *)
Lemma rmatch_tail (k : @Re.cont A) (r : string) (g : Re.capture) (x : A) :
  starts_with_upper r = false ->
  k (match r with
     | String c r' => if is_hyphen c then drop_upper r' else r
     | EmptyString => EmptyString
     end) g = Some x ->
  Re.rmatch n tail_pattern r g k = Some x.
Proof.
  intros Hr Hk. unfold tail_pattern.
  change (match Re.rmatch n (Re.Lit "-") r g
                  (fun s1 g1 => Re.rmatch n (Re.Star upper) s1 g1 k) with
          | Some y => Some y
          | None => Re.rmatch n (Re.Star upper) r g k
          end = Some x).
  destruct r as [|c r'].
  - simpl. exact Hk.
  - cbn [Re.rmatch]. fold (is_hyphen c). destruct (is_hyphen c) eqn:Hc.
    + now rewrite (star_upper_greedy k _ r' g x (le_n _) Hk).
    + apply star_upper_greedy; [apply le_n | now rewrite drop_upper_id].
Qed.

Lemma rmatch_body (k : @Re.cont A) (s : string) (g : Re.capture) (x : A) :
  starts_with_upper s = true ->
  k (remainder s) g = Some x ->
  Re.rmatch n (Re.Cat (Re.Plus upper) tail_pattern) s g k = Some x.
Proof.
  intros Hs Hk. destruct s as [|c s]; [discriminate |]. simpl in Hs.
  unfold Re.Plus.
  change (Re.rmatch n upper (String c s) g
            (fun s1 g1 => Re.rmatch n (Re.Star upper) s1 g1
               (fun s2 g2 => Re.rmatch n tail_pattern s2 g2 k)) = Some x).
  unfold upper at 1. cbn [Re.rmatch]. fold (is_upper c). rewrite Hs.
  apply rmatch_star_upper. apply rmatch_tail.
  - apply drop_upper_starts.
  - unfold remainder in Hk. simpl in Hk. rewrite Hs in Hk.
    destruct (drop_upper s) as [|d r]; [exact Hk |].
    destruct (is_hyphen d); exact Hk.
Qed.

Lemma rmatch_body_none (k : @Re.cont A) (s : string) (g : Re.capture) :
  starts_with_upper s = false ->
  Re.rmatch n (Re.Cat (Re.Plus upper) tail_pattern) s g k = None.
Proof.
  intros Hs. unfold Re.Plus, upper. cbn [Re.rmatch].
  destruct s as [|c s]; [reflexivity |].
  simpl in Hs. fold (is_upper c). now rewrite Hs.
Qed.
End MatcherFacts.

(** ** The classifier *)

Lemma event_type_pattern_eq :
  event_type_pattern =
  Re.Cat Re.Bol (Re.Group (Re.Cat (Re.Plus upper) tail_pattern)).
Proof. reflexivity. Qed.

Lemma rmatch_anchored_group {A : Type} (r : Re.regex) (s : string)
    (k : @Re.cont A) :
  Re.rmatch (String.length s) (Re.Cat Re.Bol (Re.Group r)) s None k =
  Re.rmatch (String.length s) r s None
    (fun s1 _ => k s1 (Some (0, String.length s - String.length s1))).
Proof. cbn [Re.rmatch]. now rewrite Nat.sub_diag. Qed.

(** On a subject that starts with an uppercase letter the pattern
    matches, and group 1 spans the captured part. *)
Lemma re_match_upper (s : string) :
  starts_with_upper s = true ->
  Re.re_match event_type_pattern s =
  Some {| Re.subject := s;
          Re.span_end := String.length s - String.length (remainder s);
          Re.group1 := Some (0, String.length s - String.length (remainder s)) |}.
Proof.
  intros Hs. unfold Re.re_match.
  rewrite event_type_pattern_eq, rmatch_anchored_group.
  now apply rmatch_body.
Qed.

Lemma re_match_not_upper (s : string) :
  starts_with_upper s = false ->
  Re.re_match event_type_pattern s = None.
Proof.
  intros Hs. unfold Re.re_match.
  rewrite event_type_pattern_eq, rmatch_anchored_group.
  now apply rmatch_body_none.
Qed.

Lemma extract_upper (s : string) :
  starts_with_upper s = true ->
  extract_event_type (PStr s) = Ok (PStr (captured s)).
Proof.
  intros Hs. unfold extract_event_type. rewrite (re_match_upper s Hs).
  unfold Re.group. cbn [Re.group1 Re.subject]. rewrite Nat.sub_0_r.
  do 2 f_equal.
  rewrite <- (captured_remainder s) at 1 3.
  rewrite length_app, Nat.add_sub. apply substring_app.
Qed.

Lemma extract_not_upper (s : string) :
  starts_with_upper s = false ->
  extract_event_type (PStr s) = Ok (PStr "UNKNOWN").
Proof.
  intros Hs. unfold extract_event_type. now rewrite (re_match_not_upper s Hs).
Qed.

Lemma captured_one_segment (u rest : string) :
  u <> "" -> all_upper u = true ->
  starts_with_upper rest = false -> starts_with_hyphen rest = false ->
  captured (u ++ rest) = u.
Proof.
  intros _ Hu Hr Hh. unfold captured.
  rewrite (drop_upper_app u rest Hu Hr), (take_upper_app u rest Hu Hr).
  destruct rest as [|c rest]; [reflexivity |].
  simpl in Hh. now rewrite Hh.
Qed.

Lemma captured_two_segments (u1 u2 rest : string) :
  all_upper u1 = true -> all_upper u2 = true ->
  starts_with_upper rest = false ->
  captured (u1 ++ "-" ++ u2 ++ rest) = u1 ++ "-" ++ u2.
Proof.
  intros H1 H2 Hr. unfold captured.
  rewrite (drop_upper_app u1 ("-" ++ u2 ++ rest) H1 eq_refl).
  rewrite (take_upper_app u1 ("-" ++ u2 ++ rest) H1 eq_refl).
  simpl. now rewrite (take_upper_app u2 rest H2 Hr).
Qed.

Lemma starts_with_upper_app (u rest : string) :
  u <> "" -> all_upper u = true -> starts_with_upper (u ++ rest) = true.
Proof.
  destruct u as [|c u]; [congruence |]. simpl. intros _ H.
  now apply andb_true_iff in H as [-> _].
Qed.

(** C1, as amended.  On a signature that starts with an uppercase
    letter, [extract_event_type] returns the first run of uppercase
    letters, with at most one hyphen after it and the uppercase letters
    that follow this hyphen.  So a leading run of one segment that no
    hyphen follows, and a leading run of two segments joined by one
    hyphen, are returned entire; a third segment never is.  The two
    signatures of the specification give PORTSCAN and SQL-INJECTION. *)
Theorem extract_event_type_leading_run :
  (forall s, starts_with_upper s = true ->
     extract_event_type (PStr s) = Ok (PStr (captured s))) /\
  (forall u1 u2 rest,
     u1 <> "" -> all_upper u1 = true -> all_upper u2 = true ->
     starts_with_upper rest = false ->
     (starts_with_hyphen rest = false ->
      extract_event_type (PStr (u1 ++ rest)) = Ok (PStr u1)) /\
     extract_event_type (PStr (u1 ++ "-" ++ u2 ++ rest)) =
       Ok (PStr (u1 ++ "-" ++ u2))) /\
  extract_event_type (PStr "PORTSCAN detected on port 22") = Ok (PStr "PORTSCAN") /\
  extract_event_type (PStr "SQL-INJECTION attempt") = Ok (PStr "SQL-INJECTION").
Proof.
  split; [exact extract_upper |].
  split; [| split; reflexivity].
  intros u1 u2 rest Hne H1 H2 Hr. split.
  - intros Hh. rewrite extract_upper by now apply starts_with_upper_app.
    now rewrite captured_one_segment.
  - rewrite extract_upper by now apply starts_with_upper_app.
    now rewrite captured_two_segments.
Qed.

Lemma extract_event_type_leading_run_witness :
  extract_event_type (PStr ("PORTSCAN" ++ " detected on port 22")) =
    Ok (PStr "PORTSCAN") /\
  extract_event_type (PStr ("SQL" ++ "-" ++ "INJECTION" ++ " attempt")) =
    Ok (PStr ("SQL" ++ "-" ++ "INJECTION")).
Proof.
  destruct (proj1 (proj2 extract_event_type_leading_run)
              "PORTSCAN" "" " detected on port 22") as [H _];
    [discriminate | reflexivity | reflexivity | reflexivity |].
  destruct (proj1 (proj2 extract_event_type_leading_run)
              "SQL" "INJECTION" " attempt") as [_ H'];
    [discriminate | reflexivity | reflexivity | reflexivity |].
  split; [apply H; reflexivity | exact H'].
Defined.

(** C1, as stated, fails: the entire leading run of hyphen-segmented
    uppercase letters is not what comes back when a hyphen follows the
    run without a letter after it, nor when the run has three
    segments. *)
Lemma extract_event_type_leading_run_counterexample :
  ~ (forall s, starts_with_upper s = true ->
       extract_event_type (PStr s) = Ok (PStr (leading_run s))).
Proof.
  intros H. specialize (H "AB-12" eq_refl). discriminate H.
Qed.

Lemma captured_prefix (s : string) : prefix (captured s) s = true.
Proof.
  rewrite <- (captured_remainder s) at 2. apply prefix_app.
Qed.

Lemma only_upper_or_hyphen_unknown : only_upper_or_hyphen "UNKNOWN" = true.
Proof. reflexivity. Qed.

(** C2, as amended.  The label holds uppercase letters and hyphens
    only; when the signature starts with an uppercase letter the label
    is a prefix of it, so nothing that follows the run is captured.  A
    signature that is nothing but one uppercase run, or an uppercase
    run, one hyphen and an uppercase run, matches and comes back
    whole. *)
Theorem extract_event_type_captures_only_run :
  (forall s, exists r,
     extract_event_type (PStr s) = Ok (PStr r) /\
     only_upper_or_hyphen r = true /\
     (starts_with_upper s = true -> prefix r s = true)) /\
  (forall u1 u2,
     u1 <> "" -> all_upper u1 = true -> all_upper u2 = true ->
     Re.re_match event_type_pattern (u1 ++ "-" ++ u2) <> None /\
     extract_event_type (PStr (u1 ++ "-" ++ u2)) = Ok (PStr (u1 ++ "-" ++ u2))) /\
  (forall u,
     u <> "" -> all_upper u = true ->
     Re.re_match event_type_pattern u <> None /\
     extract_event_type (PStr u) = Ok (PStr u)).
Proof.
  split; [| split].
  - intros s. destruct (starts_with_upper s) eqn:Hs.
    + exists (captured s). split; [now apply extract_upper |].
      split; [apply captured_only | intros _; apply captured_prefix].
    + exists "UNKNOWN". split; [now apply extract_not_upper |].
      split; [reflexivity | discriminate].
  - intros u1 u2 Hne H1 H2.
    assert (Hs : starts_with_upper (u1 ++ "-" ++ u2) = true)
      by now apply starts_with_upper_app.
    split.
    + rewrite (re_match_upper _ Hs). discriminate.
    + rewrite (extract_upper _ Hs).
      pose proof (captured_two_segments u1 u2 "" H1 H2 eq_refl) as H.
      rewrite !app_empty_r in H. now rewrite H.
  - intros u Hne Hu.
    assert (Hs : starts_with_upper u = true).
    { rewrite <- (app_empty_r u). now apply starts_with_upper_app. }
    split.
    + rewrite (re_match_upper _ Hs). discriminate.
    + rewrite (extract_upper _ Hs).
      pose proof (captured_one_segment u "" Hne Hu eq_refl eq_refl) as H.
      rewrite app_empty_r in H. now rewrite H.
Qed.

Lemma extract_event_type_captures_only_run_witness :
  Re.re_match event_type_pattern ("SQL" ++ "-" ++ "INJECTION") <> None /\
  extract_event_type (PStr ("SQL" ++ "-" ++ "INJECTION")) =
    Ok (PStr ("SQL" ++ "-" ++ "INJECTION")).
Proof.
  apply (proj1 (proj2 extract_event_type_captures_only_run) "SQL" "INJECTION");
    [discriminate | reflexivity | reflexivity].
Defined.

(** The claim as first stated fails: three uppercase runs joined by
    hyphens, with nothing after them, do not come back whole. *)
Lemma extract_event_type_captures_only_run_counterexample :
  hyphen_segmented "A-B-C" = true /\
  extract_event_type (PStr "A-B-C") = Ok (PStr "A-B") /\
  ~ (forall s, hyphen_segmented s = true ->
       extract_event_type (PStr s) = Ok (PStr s)).
Proof.
  split; [reflexivity |]. split; [reflexivity |].
  intros H. specialize (H "A-B-C" eq_refl). discriminate H.
Qed.

(** C3.  A signature that does not start with an uppercase letter is
    labelled UNKNOWN. *)
Theorem extract_event_type_unknown (s : string) :
  starts_with_upper s = false ->
  extract_event_type (PStr s) = Ok (PStr "UNKNOWN").
Proof. apply extract_not_upper. Qed.

Lemma extract_event_type_unknown_witness :
  starts_with_upper "malware.exe executed" = false /\
  extract_event_type (PStr "malware.exe executed") = Ok (PStr "UNKNOWN").
Proof.
  split; [reflexivity |].
  apply (extract_event_type_unknown "malware.exe executed"). reflexivity.
Defined.

(** C4.  On every string [extract_event_type] returns a string and
    raises nothing; it reads nothing but its argument, so equal
    arguments give equal results. *)
Theorem extract_event_type_total (s : string) :
  (exists r, extract_event_type (PStr s) = Ok (PStr r)) /\
  (forall e, extract_event_type (PStr s) <> Raise e) /\
  (forall s', s' = s ->
     extract_event_type (PStr s') = extract_event_type (PStr s)).
Proof.
  assert (H : exists r, extract_event_type (PStr s) = Ok (PStr r)).
  { destruct (starts_with_upper s) eqn:Hs.
    - exists (captured s). now apply extract_upper.
    - exists "UNKNOWN". now apply extract_not_upper. }
  split; [exact H |]. split.
  - intros e. destruct H as [r ->]. discriminate.
  - now intros s' ->.
Qed.

Lemma extract_event_type_total_witness :
  extract_event_type (PStr "") = extract_event_type (PStr "").
Proof.
  apply (proj2 (proj2 (extract_event_type_total "")) ""). reflexivity.
Defined.

(** C10, as amended.  UNKNOWN is returned both for a signature the
    pattern does not match and, through a match, for a signature whose
    leading uppercase run is the word UNKNOWN with no hyphen directly
    after it; every label is UNKNOWN or a non-empty prefix of the
    signature. *)
Theorem extract_event_type_unknown_ambiguous :
  (forall rest,
     starts_with_upper rest = false -> starts_with_hyphen rest = false ->
     Re.re_match event_type_pattern ("UNKNOWN" ++ rest) <> None /\
     extract_event_type (PStr ("UNKNOWN" ++ rest)) = Ok (PStr "UNKNOWN")) /\
  (Re.re_match event_type_pattern "UNKNOWN threat detected" <> None /\
   Re.re_match event_type_pattern "malware.exe executed" = None /\
   extract_event_type (PStr "UNKNOWN threat detected") =
   extract_event_type (PStr "malware.exe executed")) /\
  (forall s, exists r,
     extract_event_type (PStr s) = Ok (PStr r) /\
     (r = "UNKNOWN" \/ (r <> "" /\ prefix r s = true))).
Proof.
  split; [| split].
  - intros rest Hr Hh.
    assert (Hs : starts_with_upper ("UNKNOWN" ++ rest) = true) by reflexivity.
    split.
    + rewrite (re_match_upper _ Hs). discriminate.
    + rewrite (extract_upper _ Hs).
      now rewrite (captured_one_segment "UNKNOWN" rest).
  - split; [| split].
    + rewrite re_match_upper by reflexivity. discriminate.
    + now apply re_match_not_upper.
    + reflexivity.
  - intros s. destruct (starts_with_upper s) eqn:Hs.
    + exists (captured s). split; [now apply extract_upper |].
      right. split; [now apply captured_nonempty | apply captured_prefix].
    + exists "UNKNOWN". split; [now apply extract_not_upper | now left].
Qed.

Lemma extract_event_type_unknown_ambiguous_witness :
  Re.re_match event_type_pattern ("UNKNOWN" ++ " threat detected") <> None /\
  extract_event_type (PStr ("UNKNOWN" ++ " threat detected")) =
    Ok (PStr "UNKNOWN").
Proof.
  apply (proj1 extract_event_type_unknown_ambiguous " threat detected");
    reflexivity.
Defined.

(** The claim as first stated fails: a hyphen directly after the run
    UNKNOWN is captured with it. *)
Lemma extract_event_type_unknown_ambiguous_counterexample :
  extract_event_type (PStr "UNKNOWN-12 threat") = Ok (PStr "UNKNOWN-") /\
  ~ (forall rest, starts_with_upper rest = false ->
       extract_event_type (PStr ("UNKNOWN" ++ rest)) = Ok (PStr "UNKNOWN")).
Proof.
  split; [reflexivity |].
  intros H. specialize (H "-12 threat" eq_refl). discriminate H.
Qed.

(** ** The monad of the script *)

Lemma bind_ok {A B : Type} (m : M A) (f : A -> M B) (st st' : state) (b : B) :
  bind m f st = (Ok b, st') ->
  exists a st1, m st = (Ok a, st1) /\ f a st1 = (Ok b, st').
Proof.
  unfold bind. destruct (m st) as [[a | e] st1]; intros H.
  - now exists a, st1.
  - discriminate.
Qed.

Lemma bind_raise {A B : Type} (m : M A) (f : A -> M B) (st st' : state) (e : exn) :
  bind m f st = (Raise e, st') ->
  m st = (Raise e, st') \/
  exists a st1, m st = (Ok a, st1) /\ f a st1 = (Raise e, st').
Proof.
  unfold bind. destruct (m st) as [[a | e0] st1]; intros H.
  - right. now exists a, st1.
  - left. now inversion H.
Qed.

Lemma lift_ok {A : Type} (r : result A) (st st' : state) (a : A) :
  lift r st = (Ok a, st') -> r = Ok a /\ st' = st.
Proof. destruct r; simpl; unfold ret, raise; intros H; inversion H; auto. Qed.

Lemma get_frame_ok (st st' : state) (df : DataFrame) :
  get_frame st = (Ok df, st') -> df = frame st /\ st' = st.
Proof. unfold get_frame. intros H. inversion H. now split. Qed.

Lemma get_column_ok (key : string) (st st' : state) (col : list pyval) :
  get_column key st = (Ok col, st') ->
  getitem (frame st) key = Ok col /\ st' = st.
Proof.
  unfold get_column. intros H. apply bind_ok in H as (df & st1 & H1 & H2).
  apply get_frame_ok in H1 as [-> ->]. now apply lift_ok in H2.
Qed.

Lemma set_column_ok (key : string) (col : list pyval) (st st' : state) (u : unit) :
  set_column key col st = (Ok u, st') ->
  st' = {| console := console st; files := files st;
           frame := setitem (frame st) key col |}.
Proof.
  unfold set_column. intros H. apply bind_ok in H as (df & st1 & H1 & H2).
  apply get_frame_ok in H1 as [-> ->]. now inversion H2.
Qed.

Lemma print_ok (o : output) (st st' : state) (u : unit) :
  print o st = (Ok u, st') ->
  st' = {| console := (console st ++ [o])%list; files := files st;
           frame := frame st |}.
Proof. unfold print. now inversion 1. Qed.

Lemma lib_ok (W : world) (s : stage) (st st' : state) (u : unit) :
  lib W s st = (Ok u, st') -> st' = st.
Proof.
  unfold lib. intros H. apply bind_ok in H as (df & st1 & H1 & H2).
  apply get_frame_ok in H1 as [-> ->].
  destruct (fault W s (frame st)); now inversion H2.
Qed.

Lemma update_twice (name : string) (a b : artifact)
    (fs : list (string * artifact)) :
  update name a (update name b fs) = update name a fs.
Proof.
  induction fs as [| [n c] fs IH]; simpl.
  - now rewrite String.eqb_refl.
  - destruct (String.eqb name n) eqn:E; simpl; rewrite E; [reflexivity |].
    now rewrite IH.
Qed.

Lemma write_file_ok (name : string) (a : artifact) (st st' : state) (u : unit) :
  write_file name a st = (Ok u, st') ->
  st' = {| console := console st;
           files := update name a (files st);
           frame := frame st |}.
Proof. unfold write_file. now inversion 1. Qed.

Lemma savefig_ok (W : world) (name : string) (st st' : state) (u : unit) :
  savefig W name st = (Ok u, st') ->
  st' = {| console := console st;
           files := update name Image (files st);
           frame := frame st |}.
Proof.
  unfold savefig. intros H.
  apply bind_ok in H as (u1 & s1 & H1 & H). apply lib_ok in H1. subst s1.
  apply bind_ok in H as (u2 & s2 & H2 & H). apply write_file_ok in H2. subst s2.
  apply bind_ok in H as (u3 & s3 & H3 & H). apply lib_ok in H3. subst s3.
  apply write_file_ok in H. subst st'. cbn [console files frame].
  now rewrite update_twice.
Qed.

(** ** Tables *)

Lemma lookup_replace_same (key : string) (col : list pyval)
    (cols : list (string * list pyval)) :
  lookup key (replace_column key col cols) = Some col.
Proof.
  induction cols as [|[k c] cols IH]; simpl.
  - now rewrite String.eqb_refl.
  - destruct (String.eqb key k) eqn:E; simpl; now rewrite E.
Qed.

Lemma lookup_replace_other (key key' : string) (col : list pyval)
    (cols : list (string * list pyval)) :
  key <> key' ->
  lookup key (replace_column key' col cols) = lookup key cols.
Proof.
  intros Hne. apply String.eqb_neq in Hne.
  induction cols as [|[k c] cols IH]; simpl.
  - now rewrite Hne.
  - destruct (String.eqb key' k) eqn:E; simpl.
    + apply String.eqb_eq in E. subst k. now rewrite Hne.
    + now rewrite IH.
Qed.

Lemma names_replace (key k : string) (col : list pyval)
    (cols : list (string * list pyval)) :
  In k (map fst (replace_column key col cols)) <->
  k = key \/ In k (map fst cols).
Proof.
  induction cols as [|[k0 c] cols IH]; simpl.
  - intuition.
  - destruct (String.eqb key k0) eqn:E; simpl.
    + apply String.eqb_eq in E. subst k0. intuition.
    + rewrite IH. intuition.
Qed.

Lemma getitem_setitem_same (df : DataFrame) (key : string) (col : list pyval) :
  getitem (setitem df key col) key = Ok col.
Proof. unfold getitem, setitem. simpl. now rewrite lookup_replace_same. Qed.

Lemma getitem_setitem_other (df : DataFrame) (key key' : string)
    (col : list pyval) :
  key <> key' -> getitem (setitem df key' col) key = getitem df key.
Proof.
  intros H. unfold getitem, setitem. simpl. now rewrite lookup_replace_other.
Qed.

Lemma cell_setitem_other (df : DataFrame) (key key' : string)
    (col : list pyval) (i : nat) :
  key <> key' -> cell (setitem df key' col) key i = cell df key i.
Proof.
  intros H. unfold cell, setitem. simpl. now rewrite lookup_replace_other.
Qed.

Lemma names_setitem (df : DataFrame) (key k : string) (col : list pyval) :
  In k (column_names (setitem df key col)) <->
  k = key \/ In k (column_names df).
Proof. apply names_replace. Qed.

Lemma mapM_length {A B : Type} (f : A -> result B) (l : list A) (l' : list B) :
  mapM f l = Ok l' -> List.length l' = List.length l.
Proof.
  revert l'. induction l as [|a l IH]; simpl; intros l' H.
  - now inversion H.
  - destruct (f a); [| discriminate].
    destruct (mapM f l); [| discriminate].
    inversion H; subst. simpl. now rewrite (IH _ eq_refl).
Qed.



(** ** The steps of the script *)

Lemma forM__keeps_data {A : Type} (f : A -> M unit) (l : list A) :
  (forall a st st' u, f a st = (Ok u, st') -> keeps_data st st') ->
  forall st st' u, forM_ l f st = (Ok u, st') -> keeps_data st st'.
Proof.
  intros Hf. induction l as [|a l IH]; simpl; intros st st' u H.
  - inversion H. now split.
  - apply bind_ok in H as (v & st1 & H1 & H2).
    destruct (Hf _ _ _ _ H1) as [F1 G1].
    destruct (IH _ _ _ H2) as [F2 G2].
    split; congruence.
Qed.

Lemma print_keeps_data (o : output) (st st' : state) (u : unit) :
  print o st = (Ok u, st') -> keeps_data st st'.
Proof. intros H. apply print_ok in H. subst. now split. Qed.

Lemma load_json_data_ok (W : world) (st st' : state) (u : unit) :
  load_json_data W filename st = (Ok u, st') ->
  exists df, loaded W = Ok df /\
    st' = {| console := console st; files := files st; frame := df |}.
Proof.
  unfold load_json_data, loaded. intros H.
  apply bind_ok in H as (data & st1 & H1 & H).
  apply lift_ok in H1 as [-> ->].
  apply bind_ok in H as (events & st1 & H1 & H).
  apply lift_ok in H1 as [-> ->].
  apply bind_ok in H as (df & st1 & H1 & H).
  apply lift_ok in H1 as [-> ->].
  exists df. split; [reflexivity | now inversion H].
Qed.

Lemma analyze_security_events_ok (W : world) (st st' : state)
    (counts : list (pyval * nat)) :
  analyze_security_events W filename st = (Ok counts, st') ->
  exists df, loaded W = Ok df /\
    classified df (frame st') counts /\ files st' = files st.
Proof.
  unfold analyze_security_events. intros H.
  apply bind_ok in H as (u0 & s0 & H0 & H).
  apply load_json_data_ok in H0 as (df & Hdf & ->).
  apply bind_ok in H as (u1 & s1 & H1 & H). apply print_ok in H1. subst s1.
  apply bind_ok in H as (d & s2 & H2 & H). apply get_frame_ok in H2 as [-> ->].
  apply bind_ok in H as (u3 & s3 & H3 & H). apply print_ok in H3. subst s3.
  apply bind_ok in H as (u4 & s4 & H4 & H). apply print_ok in H4. subst s4.
  apply bind_ok in H as (sigs & s5 & H5 & H).
  apply get_column_ok in H5 as [Hsig ->].
  apply bind_ok in H as (types & s6 & H6 & H).
  apply lift_ok in H6 as [Htypes ->].
  apply bind_ok in H as (u7 & s7 & H7 & H). apply set_column_ok in H7. subst s7.
  apply bind_ok in H as (types' & s8 & H8 & H).
  apply get_column_ok in H8 as [Hty ->].
  cbn [frame] in Hsig, Hty. rewrite getitem_setitem_same in Hty.
  inversion Hty; subst types'. clear Hty.
  apply bind_ok in H as (counts' & s9 & H9 & H).
  apply lift_ok in H9 as [Hcounts ->].
  apply bind_ok in H as (u10 & s10 & H10 & H). apply print_ok in H10. subst s10.
  apply bind_ok in H as (u11 & s11 & H11 & H). apply print_ok in H11. subst s11.
  apply bind_ok in H as (u12 & s12 & H12 & H). apply print_ok in H12. subst s12.
  apply bind_ok in H as (u13 & s13 & H13 & H). apply print_ok in H13. subst s13.
  apply bind_ok in H as (u14 & s14 & H14 & H).
  inversion H; subst counts' s14. clear H.
  apply forM__keeps_data in H14 as [F G].
  - exists df. split; [exact Hdf |]. split; [| exact G].
    rewrite F. cbn [frame]. exists sigs, types.
    split; [exact Hsig |]. split; [exact Htypes |].
    split; [exact Hcounts | reflexivity].
  - clear. intros label st st' u H.
    apply bind_ok in H as (t & s1 & H1 & H). apply get_column_ok in H1 as [_ ->].
    apply bind_ok in H as (g & s2 & H2 & H). apply get_column_ok in H2 as [_ ->].
    apply bind_ok in H as (u3 & s3 & H3 & H). apply print_keeps_data in H3.
    apply forM__keeps_data in H.
    + destruct H3, H. split; congruence.
    + intros ex s s' v. apply print_keeps_data.
Qed.

Lemma add_hour_ok (W : world) (st st' : state) (u : unit) :
  add_hour W st = (Ok u, st') ->
  hour_added W (frame st) (frame st') /\
  files st' = files st /\ console st' = console st.
Proof.
  unfold add_hour. intros H.
  apply bind_ok in H as (stamps & s1 & H1 & H).
  apply get_column_ok in H1 as [Hst ->].
  apply bind_ok in H as (parsed & s2 & H2 & H).
  apply lift_ok in H2 as [Hparsed ->].
  apply bind_ok in H as (u3 & s3 & H3 & H). apply set_column_ok in H3. subst s3.
  apply bind_ok in H as (stamps' & s4 & H4 & H).
  apply get_column_ok in H4 as [Hst' ->].
  cbn [frame] in Hst'. rewrite getitem_setitem_same in Hst'.
  inversion Hst'; subst stamps'. clear Hst'.
  apply bind_ok in H as (hours & s5 & H5 & H).
  apply lift_ok in H5 as [Hhours ->].
  apply set_column_ok in H. subst st'. cbn [frame files console].
  split; [| now split]. now exists stamps, parsed, hours.
Qed.

Lemma plot_event_distribution_ok (W : world) (counts : list (pyval * nat))
    (st st' : state) (u : unit) :
  plot_event_distribution W counts st = (Ok u, st') ->
  hour_added W (frame st) (frame st') /\
  files st' = update "hourly_event_distribution.png" Image
                (update "event_type_distribution.png" Image (files st)).
Proof.
  unfold plot_event_distribution. intros H.
  apply bind_ok in H as (u1 & s1 & H1 & H). apply lib_ok in H1. subst s1.
  apply bind_ok in H as (u2 & s2 & H2 & H). apply lib_ok in H2. subst s2.
  apply bind_ok in H as (u3 & s3 & H3 & H).
  apply add_hour_ok in H3 as (Hh & Hf & _).
  apply bind_ok in H as (u4 & s4 & H4 & H). apply lib_ok in H4. subst s4.
  apply bind_ok in H as (u5 & s5 & H5 & H). apply savefig_ok in H5. subst s5.
  apply bind_ok in H as (u6 & s6 & H6 & H). apply savefig_ok in H6. subst s6.
  apply lib_ok in H. subst st'. cbn [frame files].
  split; [exact Hh |]. now rewrite Hf.
Qed.

Lemma seaborn_visualization_ok (W : world) (counts : list (pyval * nat))
    (st st' : state) (u : unit) :
  seaborn_visualization W counts st = (Ok u, st') ->
  hour_added W (frame st) (frame st') /\
  files st' = update "seaborn_event_analysis.png" Image (files st).
Proof.
  unfold seaborn_visualization. intros H.
  apply bind_ok in H as (u1 & s1 & H1 & H).
  apply add_hour_ok in H1 as (Hh & Hf & _).
  apply bind_ok in H as (u2 & s2 & H2 & H). apply lib_ok in H2. subst s2.
  apply bind_ok in H as (u3 & s3 & H3 & H). apply lib_ok in H3. subst s3.
  apply bind_ok in H as (u4 & s4 & H4 & H). apply savefig_ok in H4. subst s4.
  apply lib_ok in H. subst st'. cbn [frame files].
  split; [exact Hh |]. now rewrite Hf.
Qed.

Lemma to_csv_ok (W : world) (name : string) (st st' : state) (u : unit) :
  to_csv W name st = (Ok u, st') ->
  frame st' = frame st /\
  files st' = update name (Csv (csv_of (frame st))) (files st).
Proof.
  unfold to_csv. intros H.
  apply bind_ok in H as (u1 & s1 & H1 & H). apply lib_ok in H1. subst s1.
  apply bind_ok in H as (u2 & s2 & H2 & H). apply write_file_ok in H2. subst s2.
  apply bind_ok in H as (u3 & s3 & H3 & H). apply lib_ok in H3. subst s3.
  apply bind_ok in H as (df & s4 & H4 & H). apply get_frame_ok in H4 as [-> ->].
  apply write_file_ok in H. subst st'. cbn [console files frame].
  split; [reflexivity | apply update_twice].
Qed.

(** A run of [main_body] that ends well: the table is loaded,
    classified, twice given its hours, and written. *)
Lemma main_body_ok (W : world) (st st' : state) (u : unit) :
  main_body W st = (Ok u, st') ->
  exists df0 df1 df2 counts,
    loaded W = Ok df0 /\
    classified df0 df1 counts /\
    hour_added W df1 df2 /\
    hour_added W df2 (frame st') /\
    files st' =
      update "processed_security_events.csv" (Csv (csv_of (frame st')))
        (update "seaborn_event_analysis.png" Image
           (update "hourly_event_distribution.png" Image
              (update "event_type_distribution.png" Image (files st)))).
Proof.
  unfold main_body. intros H.
  apply bind_ok in H as (counts & s1 & H1 & H).
  apply analyze_security_events_ok in H1 as (df0 & Hl & Hc & Hf1).
  apply bind_ok in H as (u2 & s2 & H2 & H). apply print_ok in H2. subst s2.
  apply bind_ok in H as (u3 & s3 & H3 & H).
  apply plot_event_distribution_ok in H3 as (Hh1 & Hf3). cbn [frame files] in *.
  apply bind_ok in H as (u4 & s4 & H4 & H). apply print_ok in H4. subst s4.
  apply bind_ok in H as (u5 & s5 & H5 & H).
  apply seaborn_visualization_ok in H5 as (Hh2 & Hf5). cbn [frame files] in *.
  apply bind_ok in H as (u6 & s6 & H6 & H).
  apply to_csv_ok in H6 as (Hfr & Hf6).
  apply print_ok in H. subst st'. cbn [frame files].
  exists df0, (frame s1), (frame s3), counts.
  rewrite Hfr. repeat split; try assumption.
  now rewrite Hf6, Hf5, Hf3, Hf1.
Qed.

(** ** Counting *)

Lemma total_insert_desc (e : pyval * nat) (l : list (pyval * nat)) :
  total (insert_desc e l) = snd e + total l.
Proof.
  unfold total. induction l as [|e' l IH]; simpl; [reflexivity |].
  destruct (snd e' <=? snd e)%nat; simpl; [reflexivity |].
  rewrite IH. lia.
Qed.

Lemma total_sort_desc (l : list (pyval * nat)) : total (sort_desc l) = total l.
Proof.
  unfold sort_desc. induction l as [|e l IH]; simpl; [reflexivity |].
  rewrite total_insert_desc, IH. reflexivity.
Qed.

Lemma total_count_one (v : pyval) (l : list (pyval * nat)) :
  total (count_one v l) = S (total l).
Proof.
  unfold total. induction l as [|[w n] l IH]; simpl; [reflexivity |].
  destruct (label_eqb v w); simpl; [reflexivity |].
  rewrite IH. lia.
Qed.

Lemma total_fold_count (vs : list pyval) (table : list (pyval * nat)) :
  total (fold_left (fun t v => count_one v t) vs table) =
  List.length vs + total table.
Proof.
  revert table. induction vs as [|v vs IH]; simpl; intros table; [reflexivity |].
  rewrite IH, total_count_one. lia.
Qed.

(** The counts of a column without null cells add up to its length. *)
Lemma value_counts_total (col : list pyval) (counts : list (pyval * nat)) :
  forallb (fun v => negb (isna v)) col = true ->
  value_counts col = Ok counts ->
  total counts = List.length col.
Proof.
  intros Hna. unfold value_counts.
  destruct (forallb hashable col); [| discriminate].
  intros H. inversion H; subst counts. clear H.
  rewrite total_sort_desc, total_fold_count.
  replace (filter (fun v => negb (isna v)) col) with col.
  - unfold total. simpl. lia.
  - symmetry. apply forallb_filter_id. exact Hna.
Qed.

Lemma extract_event_type_str (v r : pyval) :
  extract_event_type v = Ok r -> is_str r = true.
Proof.
  destruct v; try discriminate. intros H.
  destruct (starts_with_upper s) eqn:Hs.
  - rewrite (extract_upper s Hs) in H. now inversion H.
  - rewrite (extract_not_upper s Hs) in H. now inversion H.
Qed.

Lemma mapM_forallb {A B : Type} (f : A -> result B) (p : B -> bool)
    (l : list A) (l' : list B) :
  (forall a b, f a = Ok b -> p b = true) ->
  mapM f l = Ok l' -> forallb p l' = true.
Proof.
  intros Hf. revert l'. induction l as [|a l IH]; simpl; intros l' H.
  - now inversion H.
  - destruct (f a) as [b |] eqn:E; [| discriminate].
    destruct (mapM f l) as [bs |]; [| discriminate].
    inversion H; subst. simpl. now rewrite (Hf a b E), (IH bs eq_refl).
Qed.

Lemma forallb_impl {A : Type} (p q : A -> bool) (l : list A) :
  (forall a, p a = true -> q a = true) ->
  forallb p l = true -> forallb q l = true.
Proof.
  intros Hpq. induction l as [|a l IH]; simpl; [reflexivity |].
  intros H. apply andb_true_iff in H as [Ha Hl].
  now rewrite (Hpq a Ha), IH.
Qed.

(** ** The loaded table *)

Lemma as_records_length (items : list pyval)
    (records : list (list (string * pyval))) :
  as_records items = Some records -> List.length records = List.length items.
Proof.
  revert records. induction items as [|v items IH]; simpl; intros records H.
  - now inversion H.
  - destruct v; try discriminate.
    destruct (as_records items) as [recs |]; [| discriminate].
    inversion H; subst. simpl. now rewrite (IH recs eq_refl).
Qed.

Lemma input_events_loaded (W : world) (records : list (list (string * pyval))) :
  input_events W = Some records -> loaded W = Ok (frame_of_records (infer_cell W) records).
Proof.
  unfold input_events, loaded.
  destruct (json_load W filename) as [data |]; [| discriminate].
  destruct (subscript data "events") as [events |]; [| discriminate].
  destruct events; try discriminate. simpl. now intros ->.
Qed.

Lemma lookup_keyed {V : Type} (g : string -> V) (key : string)
    (keys : list string) (v : V) :
  lookup key (map (fun k => (k, g k)) keys) = Some v -> v = g key.
Proof.
  induction keys as [|k keys IH]; simpl; [discriminate |].
  destruct (String.eqb_spec key k) as [-> | _].
  - now inversion 1.
  - exact IH.
Qed.

Lemma getitem_frame_of_records (infer : list pyval -> pyval -> pyval)
    (records : list (list (string * pyval)))
    (key : string) (col : list pyval) :
  getitem (frame_of_records infer records) key = Ok col ->
  col = map (cast_cell infer (map (cell_of key) records))
            (map (cell_of key) records).
Proof.
  unfold getitem, frame_of_records. simpl.
  destruct (lookup key _) as [c |] eqn:E; [| discriminate].
  intros H. inversion H; subst c.
  now apply (lookup_keyed
               (fun k => map (cast_cell infer (map (cell_of k) records))
                             (map (cell_of k) records))) in E.
Qed.

Lemma classified_column (df df' : DataFrame) (counts : list (pyval * nat)) :
  classified df df' counts ->
  exists signatures types,
    getitem df "signature" = Ok signatures /\
    getitem df' "event_type" = Ok types /\
    List.length types = List.length signatures /\
    forallb is_str types = true /\
    total counts = List.length types.
Proof.
  intros (sigs & types & Hs & Ht & Hc & ->).
  exists sigs, types. split; [exact Hs |].
  split; [apply getitem_setitem_same |].
  split; [now apply (mapM_length extract_event_type) |].
  assert (Hstr : forallb is_str types = true)
    by (apply (mapM_forallb extract_event_type is_str sigs);
        [apply extract_event_type_str | exact Ht]).
  split; [exact Hstr |].
  apply value_counts_total; [| exact Hc].
  apply (forallb_impl is_str); [| exact Hstr].
  now intros [].
Qed.

(** C6.  After [analyze_security_events] the counts of the [event_type]
    column add up to the number of its cells, which is the number of
    records of the input. *)
Theorem value_counts_conservation (W : world) (st st' : state)
    (counts : list (pyval * nat)) :
  analyze_security_events W filename st = (Ok counts, st') ->
  exists types,
    getitem (frame st') "event_type" = Ok types /\
    total counts = List.length types /\
    (forall records, input_events W = Some records ->
       total counts = List.length records).
Proof.
  intros H. apply analyze_security_events_ok in H as (df & Hl & Hc & _).
  destruct (classified_column _ _ _ Hc) as (sigs & types & Hs & Ht & Hlen & _ & Htot).
  exists types. split; [exact Ht |]. split; [exact Htot |].
  intros records Hin. apply input_events_loaded in Hin.
  rewrite Hin in Hl. inversion Hl; subst df.
  apply getitem_frame_of_records in Hs. subst sigs.
  rewrite Htot, Hlen. now rewrite !length_map.
Qed.

Lemma value_counts_conservation_witness :
  exists st' counts,
    analyze_security_events sample_world filename initial = (Ok counts, st') /\
    total counts = 2.
Proof.
  destruct (analyze_security_events sample_world filename initial)
    as [[counts | e] st'] eqn:H.
  - exists st', counts. split; [reflexivity |].
    destruct (value_counts_conservation sample_world initial st' counts H)
      as (types & _ & _ & Hrec).
    exact (Hrec _ eq_refl).
  - vm_compute in H. discriminate H.
Defined.

(** ** Hours *)




(** What [add_hour] leaves in the columns [timestamp] and [hour]. *)
Lemma hour_added_columns (W : world) (df df' : DataFrame) :
  hour_added W df df' ->
  exists stamps parsed hours,
    getitem df "timestamp" = Ok stamps /\
    getitem df' "timestamp" = Ok parsed /\
    getitem df' "hour" = Ok hours /\
    mapM (to_datetime_cell (datetime_of_other W)) stamps = Ok parsed /\
    mapM dt_hour_cell parsed = Ok hours.
Proof.
  intros (stamps & parsed & hours & Hs & Hp & Hh & ->).
  exists stamps, parsed, hours. split; [exact Hs |].
  split.
  - rewrite getitem_setitem_other by discriminate. apply getitem_setitem_same.
  - split; [apply getitem_setitem_same | now split].
Qed.




(** ** What the two enrichments keep *)

Lemma classified_keeps (df df' : DataFrame) (counts : list (pyval * nat)) :
  classified df df' counts ->
  nrows df' = nrows df /\
  (forall key, key <> "event_type" -> getitem df' key = getitem df key) /\
  (forall key, In key (column_names df') <->
               key = "event_type" \/ In key (column_names df)).
Proof.
  intros (sigs & types & _ & _ & _ & ->).
  split; [reflexivity |]. split.
  - intros key Hk. now apply getitem_setitem_other.
  - intros key. apply names_setitem.
Qed.

Lemma hour_added_keeps (W : world) (df df' : DataFrame) :
  hour_added W df df' ->
  nrows df' = nrows df /\
  (forall key, key <> "timestamp" -> key <> "hour" ->
               getitem df' key = getitem df key) /\
  (forall key, In key (column_names df') <->
               key = "hour" \/ key = "timestamp" \/ In key (column_names df)).
Proof.
  intros (stamps & parsed & hours & _ & _ & _ & ->).
  split; [reflexivity |]. split.
  - intros key H1 H2. now rewrite !getitem_setitem_other.
  - intros key. rewrite names_setitem, names_setitem. reflexivity.
Qed.

Lemma getitem_names (df : DataFrame) (key : string) (col : list pyval) :
  getitem df key = Ok col -> In key (column_names df).
Proof.
  unfold getitem, column_names.
  induction (columns df) as [|[k c] cols IH]; simpl; [discriminate |].
  destruct (String.eqb_spec key k) as [-> | _]; [now left |].
  intros H. right. now apply IH.
Qed.

Lemma cell_getitem (df df' : DataFrame) (key : string) (i : nat) :
  getitem df' key = getitem df key -> cell df' key i = cell df key i.
Proof.
  unfold getitem, cell.
  destruct (lookup key (columns df')), (lookup key (columns df));
    intros H; inversion H; reflexivity.
Qed.

(** ** The CSV file *)

Lemma nth_error_seq_map {A : Type} (f : nat -> A) (n i : nat) :
  i < n -> nth_error (map f (seq 0 n)) i = Some (f i).
Proof.
  intros Hi. rewrite nth_error_map.
  rewrite (nth_error_nth' (seq 0 n) 0) by now rewrite length_seq.
  now rewrite seq_nth.
Qed.

Lemma csv_cell_columns (g : string * list pyval -> pyval) (key : string)
    (cols : list (string * list pyval)) :
  match index_of key (map fst cols) with
  | Some j => nth_error (map g cols) j
  | None => None
  end =
  match lookup key cols with
  | Some col => Some (g (key, col))
  | None => None
  end.
Proof.
  induction cols as [|[k c] cols IH]; simpl; [reflexivity |].
  destruct (String.eqb_spec key k) as [-> | _]; [reflexivity |].
  rewrite <- IH. now destruct (index_of key (map fst cols)).
Qed.

Lemma csv_cell_csv_of (df : DataFrame) (key : string) (i : nat) :
  i < nrows df -> csv_cell (csv_of df) key i = cell df key i.
Proof.
  intros Hi. unfold csv_cell, csv_of, cell, column_names. cbn [header rows].
  rewrite (nth_error_seq_map _ _ _ Hi).
  rewrite <- (csv_cell_columns (fun kc => nth i (snd kc) PNaN)).
  now destruct (index_of key (map fst (columns df))).
Qed.

Lemma map_nth_seq {A : Type} (l : list A) (d : A) :
  map (fun i => nth i l d) (seq 0 (List.length l)) = l.
Proof.
  induction l as [|a l IH]; simpl; [reflexivity |].
  f_equal. rewrite <- seq_shift, map_map. exact IH.
Qed.

Lemma well_formed_getitem (df : DataFrame) (key : string) (col : list pyval) :
  well_formed df -> getitem df key = Ok col -> List.length col = nrows df.
Proof.
  unfold well_formed, getitem.
  induction (columns df) as [|[k c] cols IH]; simpl; intros Hwf; [discriminate |].
  inversion Hwf as [|x l Hc Hrest]; subst x l.
  destruct (String.eqb key k); [| now apply IH].
  intros H. now inversion H; subst.
Qed.

Lemma well_formed_setitem (df : DataFrame) (key : string) (col : list pyval) :
  well_formed df -> List.length col = nrows df ->
  well_formed (setitem df key col).
Proof.
  unfold well_formed, setitem. cbn [nrows columns].
  intros Hwf Hlen. induction (columns df) as [|[k c] cols IH]; simpl.
  - now repeat constructor.
  - inversion Hwf as [|x l Hc Hrest]; subst x l.
    destruct (String.eqb key k); constructor; auto.
Qed.

Lemma well_formed_frame_of_records (infer : list pyval -> pyval -> pyval)
    (records : list (list (string * pyval))) :
  well_formed (frame_of_records infer records).
Proof.
  unfold well_formed, frame_of_records. cbn [nrows columns].
  apply Forall_map, Forall_forall. intros key _. simpl.
  now rewrite !length_map.
Qed.

Lemma classified_well_formed (df df' : DataFrame) (counts : list (pyval * nat)) :
  well_formed df -> classified df df' counts -> well_formed df'.
Proof.
  intros Hwf (sigs & types & Hs & Ht & _ & ->).
  apply well_formed_setitem; [exact Hwf |].
  rewrite (mapM_length _ _ _ Ht). now apply (well_formed_getitem df "signature").
Qed.

Lemma hour_added_well_formed (W : world) (df df' : DataFrame) :
  well_formed df -> hour_added W df df' -> well_formed df'.
Proof.
  intros Hwf (stamps & parsed & hours & Hs & Hp & Hh & ->).
  assert (Hlen : List.length parsed = nrows df).
  { rewrite (mapM_length _ _ _ Hp).
    now apply (well_formed_getitem df "timestamp"). }
  apply well_formed_setitem.
  - now apply well_formed_setitem.
  - now rewrite (mapM_length _ _ _ Hh).
Qed.

Lemma column_names_frame_of_records (infer : list pyval -> pyval -> pyval)
    (records : list (list (string * pyval))) :
  column_names (frame_of_records infer records) = record_keys records.
Proof.
  unfold column_names, frame_of_records. cbn [columns].
  rewrite map_map. simpl. apply map_id.
Qed.

Lemma to_datetime_cell_idem (other : pyval -> result (option Z)) (v v' : pyval) :
  to_datetime_cell other v = Ok v' -> to_datetime_cell other v' = Ok v'.
Proof.
  assert (G : forall r : result (option Z),
            match r with
            | Ok (Some ns) => Ok (PTimestamp ns)
            | Ok None => Ok PNaT
            | Raise e => Raise e
            end = Ok v' ->
            to_datetime_cell other v' = Ok v').
  { intros [[ns |] | e] H; inversion H; reflexivity. }
  unfold to_datetime_cell at 1.
  destruct v; try (apply G); try (intros H; inversion H; reflexivity).
  destruct (Datetime.parse_iso8601 s) as [ns |]; [| apply G].
  destruct (Datetime.in_bounds ns); intros H; inversion H; reflexivity.
Qed.

Lemma mapM_idem {A : Type} (f : A -> result A) (l l' : list A) :
  (forall a b, f a = Ok b -> f b = Ok b) ->
  mapM f l = Ok l' -> mapM f l' = Ok l'.
Proof.
  intros Hf. revert l'. induction l as [|a l IH]; simpl; intros l' H.
  - now inversion H.
  - destruct (f a) as [b |] eqn:E; [| discriminate].
    destruct (mapM f l) as [bs |]; [| discriminate].
    inversion H; subst. simpl. now rewrite (Hf a b E), (IH bs eq_refl).
Qed.

Lemma lookup_csv (st : state) (c : csv_file) :
  files st =
    ([("event_type_distribution.png", Image);
      ("hourly_event_distribution.png", Image);
      ("seaborn_event_analysis.png", Image);
      ("processed_security_events.csv", Csv c)])%list ->
  lookup "processed_security_events.csv" (files st) = Some (Csv c).
Proof. now intros ->. Qed.

(** The end of a run that went well, told from the table loaded at its
    start. *)
Lemma main_body_table (W : world) (st' : state) (u : unit) :
  main_body W initial = (Ok u, st') ->
  exists df0,
    loaded W = Ok df0 /\
    lookup "processed_security_events.csv" (files st') =
      Some (Csv (csv_of (frame st'))) /\
    nrows (frame st') = nrows df0 /\
    (forall key, key <> "timestamp" -> key <> "event_type" -> key <> "hour" ->
       getitem (frame st') key = getitem df0 key) /\
    (forall key, In key (column_names (frame st')) <->
       key = "hour" \/ key = "timestamp" \/ key = "event_type" \/
       In key (column_names df0)) /\
    (exists stamps parsed,
       getitem df0 "timestamp" = Ok stamps /\
       getitem (frame st') "timestamp" = Ok parsed /\
       mapM (to_datetime_cell (datetime_of_other W)) stamps = Ok parsed) /\
    (well_formed df0 -> well_formed (frame st')).
Proof.
  intros H. apply main_body_ok in H as (df0 & df1 & df2 & counts & Hl & Hc & H1 & H2 & Hf).
  exists df0. split; [exact Hl |].
  split; [now apply lookup_csv |].
  destruct (classified_keeps _ _ _ Hc) as (Nc & Gc & Mc).
  destruct (hour_added_keeps _ _ _ H1) as (N1 & G1 & M1).
  destruct (hour_added_keeps _ _ _ H2) as (N2 & G2 & M2).
  split; [congruence |].
  split; [intros key Ht He Hh; now rewrite G2, G1, Gc |].
  split; [intros key; rewrite M2, M1, Mc; tauto |].
  split.
  - apply hour_added_columns in H1
      as (stamps & parsed & hours & Hs & Hp & _ & Hparse & _).
    apply hour_added_columns in H2
      as (stamps2 & parsed2 & hours2 & Hs2 & Hp2 & _ & Hparse2 & _).
    rewrite Hp in Hs2. inversion Hs2; subst stamps2.
    apply mapM_idem in Hparse as Hagain; [| apply to_datetime_cell_idem].
    rewrite Hagain in Hparse2. inversion Hparse2; subst parsed2.
    exists stamps, parsed. rewrite Gc in Hs by discriminate. now split.
  - intros Hwf. eapply hour_added_well_formed; [| exact H2].
    eapply hour_added_well_formed; [| exact H1].
    eapply classified_well_formed; [exact Hwf | exact Hc].
Qed.

(** C5, as amended.  In the table written to CSV every field of the
    input other than [timestamp], [event_type] and [hour] holds the
    values that were loaded; the column [timestamp] holds the date-times
    parsed from the loaded values. *)
Theorem original_fields_pass_through (W : world) (st' : state) :
  main_body W initial = (Ok tt, st') ->
  exists df0 c,
    loaded W = Ok df0 /\
    lookup "processed_security_events.csv" (files st') = Some (Csv c) /\
    (forall key,
       key <> "timestamp" -> key <> "event_type" -> key <> "hour" ->
       getitem (frame st') key = getitem df0 key /\
       forall i, i < nrows df0 -> csv_cell c key i = cell df0 key i) /\
    (exists stamps parsed,
       getitem df0 "timestamp" = Ok stamps /\
       getitem (frame st') "timestamp" = Ok parsed /\
       mapM (to_datetime_cell (datetime_of_other W)) stamps = Ok parsed).
Proof.
  intros H. apply main_body_table in H
    as (df0 & Hl & Hcsv & Hn & Hkeep & _ & Hstamps & _).
  exists df0, (csv_of (frame st')).
  split; [exact Hl |]. split; [exact Hcsv |]. split; [| exact Hstamps].
  intros key Ht He Hh. split; [now apply Hkeep |].
  intros i Hi. rewrite csv_cell_csv_of by now rewrite Hn.
  apply cell_getitem. now apply Hkeep.
Qed.

Lemma sample_run : main_body sample_world initial = (Ok tt, sample_final).
Proof. vm_compute. reflexivity. Qed.

Lemma original_fields_pass_through_witness :
  exists c,
    lookup "processed_security_events.csv" (files sample_final) = Some (Csv c) /\
    csv_cell c "src" 0 = Some (PStr "10.0.0.1").
Proof.
  destruct (original_fields_pass_through sample_world sample_final sample_run)
    as (df0 & c & Hl & Hc & Hkeep & _).
  exists c. split; [exact Hc |].
  vm_compute in Hl. inversion Hl; subst df0.
  clear Hc.
  destruct (Hkeep "src" ltac:(discriminate) ltac:(discriminate)
              ltac:(discriminate)) as [_ Hcell].
  rewrite Hcell by (simpl; lia). reflexivity.
Defined.

(** C5, as stated, fails: the [timestamp] values do not pass through as
    loaded, the strings are replaced by the date-times parsed from
    them. *)
Lemma original_fields_pass_through_counterexample :
  ~ (forall W st' df0,
       main_body W initial = (Ok tt, st') -> loaded W = Ok df0 ->
       forall key i, key <> "event_type" -> key <> "hour" ->
         cell (frame st') key i = cell df0 key i).
Proof.
  intros H.
  assert (Hl : loaded sample_world = Ok (frame_of_records (infer_cell sample_world)
                 [[("signature", PStr "PORTSCAN detected on port 22");
                   ("timestamp", PStr "2024-01-01T03:15:00");
                   ("src", PStr "10.0.0.1")];
                  [("signature", PStr "malware.exe executed");
                   ("timestamp", PStr "2024-01-01T03:45:00")]]))
    by reflexivity.
  specialize (H sample_world sample_final _ sample_run Hl "timestamp" 0).
  vm_compute in H.
  assert (C : Some (PTimestamp 1704078900000000000) =
              Some (PStr "2024-01-01T03:15:00"))
    by (apply H; discriminate).
  discriminate C.
Qed.

(** ** Failures *)

Lemma roe_ret {A : Type} (a : A) : raises_only_exceptions (ret a).
Proof. intros st e st' H. discriminate H. Qed.

Lemma roe_bind {A B : Type} (m : M A) (f : A -> M B) :
  raises_only_exceptions m ->
  (forall a, raises_only_exceptions (f a)) ->
  raises_only_exceptions (bind m f).
Proof.
  intros Hm Hf st e st' H.
  apply bind_raise in H as [H | (a & st1 & _ & H)].
  - exact (Hm _ _ _ H).
  - exact (Hf a _ _ _ H).
Qed.

Lemma roe_lift {A : Type} (r : result A) :
  result_raises_only_exceptions r -> raises_only_exceptions (lift r).
Proof.
  intros Hr st e st' H. destruct r as [a | e0]; [discriminate H |].
  inversion H; subst. now apply Hr.
Qed.

Lemma roe_print (o : output) : raises_only_exceptions (print o).
Proof. intros st e st' H. discriminate H. Qed.

Lemma roe_get_frame : raises_only_exceptions get_frame.
Proof. intros st e st' H. discriminate H. Qed.

Lemma roe_put_frame (df : DataFrame) : raises_only_exceptions (put_frame df).
Proof. intros st e st' H. discriminate H. Qed.

Lemma roe_write_file (name : string) (a : artifact) :
  raises_only_exceptions (write_file name a).
Proof. intros st e st' H. discriminate H. Qed.

Lemma rroe_getitem (df : DataFrame) (key : string) :
  result_raises_only_exceptions (getitem df key).
Proof.
  unfold getitem. intros e H.
  destruct (lookup key (columns df)); [discriminate |]. now inversion H.
Qed.

Lemma roe_get_column (key : string) : raises_only_exceptions (get_column key).
Proof.
  apply roe_bind; [apply roe_get_frame |].
  intros df. apply roe_lift, rroe_getitem.
Qed.

Lemma roe_set_column (key : string) (col : list pyval) :
  raises_only_exceptions (set_column key col).
Proof. apply roe_bind; [apply roe_get_frame | intros df; apply roe_put_frame]. Qed.

Lemma roe_forM_ {A : Type} (f : A -> M unit) (l : list A) :
  (forall a, raises_only_exceptions (f a)) ->
  raises_only_exceptions (forM_ l f).
Proof.
  intros Hf. induction l as [|a l IH]; simpl.
  - apply roe_ret.
  - apply roe_bind; [apply Hf | intros _; exact IH].
Qed.

Lemma rroe_mapM {A B : Type} (f : A -> result B) (l : list A) :
  (forall a, result_raises_only_exceptions (f a)) ->
  result_raises_only_exceptions (mapM f l).
Proof.
  intros Hf. induction l as [|a l IH]; simpl; intros e H; [discriminate |].
  destruct (f a) as [b | e0] eqn:E.
  - destruct (mapM f l) as [bs | e1]; [discriminate |].
    inversion H; subst. now apply IH.
  - inversion H; subst. now apply (Hf a).
Qed.

Lemma rroe_extract_event_type (v : pyval) :
  result_raises_only_exceptions (extract_event_type v).
Proof.
  intros e H. destruct v; simpl in H; try (now inversion H).
  destruct (Re.re_match event_type_pattern s); discriminate.
Qed.

Lemma rroe_value_counts (col : list pyval) :
  result_raises_only_exceptions (value_counts col).
Proof.
  unfold value_counts. intros e H.
  destruct (forallb hashable col); [discriminate | now inversion H].
Qed.

Lemma rroe_dt_hour_cell (v : pyval) :
  result_raises_only_exceptions (dt_hour_cell v).
Proof. intros e H. destruct v; simpl in H; now inversion H. Qed.

Lemma rroe_json_load (W : world) (name : string) :
  result_raises_only_exceptions (json_load W name).
Proof.
  unfold json_load. intros e H.
  destruct (file_text W name) as [text |]; [| now inversion H].
  destruct (json_loads W text); [discriminate | now inversion H].
Qed.

Lemma rroe_subscript (data : pyval) (key : string) :
  result_raises_only_exceptions (subscript data key).
Proof.
  intros e H. destruct data; simpl in H; try (now inversion H).
  destruct (lookup key items); [discriminate | now inversion H].
Qed.

Section Libraries.
Variable W : world.
Hypothesis HW : raises_exceptions W.

Lemma rroe_pd_DataFrame (events : pyval) :
  result_raises_only_exceptions (pd_DataFrame W events).
Proof.
  destruct HW as (_ & Hframe & _). intros e H.
  unfold pd_DataFrame in H.
  destruct events; try (now apply (Hframe _ _ H)).
  destruct (as_records items); [discriminate | now apply (Hframe _ _ H)].
Qed.

Lemma rroe_to_datetime_cell (v : pyval) :
  result_raises_only_exceptions (to_datetime_cell (datetime_of_other W) v).
Proof.
  destruct HW as (_ & _ & Hdate).
  assert (G : forall e,
            match datetime_of_other W v with
            | Ok (Some ns) => Ok (PTimestamp ns)
            | Ok None => Ok PNaT
            | Raise e0 => Raise e0
            end = Raise e -> isinstance e CException = true).
  { intros e H. destruct (datetime_of_other W v) as [[ns |] | e0] eqn:E;
      try discriminate. inversion H; subst. now apply (Hdate v). }
  intros e. unfold to_datetime_cell.
  destruct v; try (apply G); try discriminate.
  destruct (Datetime.parse_iso8601 s) as [ns |]; [| apply G].
  destruct (Datetime.in_bounds ns); [discriminate | now inversion 1].
Qed.

Lemma roe_lib (s : stage) : raises_only_exceptions (lib W s).
Proof.
  destruct HW as (Hfault & _ & _).
  apply roe_bind; [apply roe_get_frame |].
  intros df st e st' H.
  destruct (fault W s df) as [e0 |] eqn:E; [| discriminate H].
  inversion H; subst. now apply (Hfault s df).
Qed.

Lemma roe_savefig (name : string) : raises_only_exceptions (savefig W name).
Proof.
  unfold savefig.
  repeat first [ apply roe_lib | apply roe_write_file
               | apply roe_bind; [| intro] ].
Qed.

Lemma roe_add_hour : raises_only_exceptions (add_hour W).
Proof.
  unfold add_hour.
  repeat first
    [ apply roe_get_column | apply roe_set_column
    | apply roe_lift, rroe_mapM; intro;
      first [apply rroe_to_datetime_cell | apply rroe_dt_hour_cell]
    | apply roe_bind; [| intro] ].
Qed.

Lemma roe_analyze_security_events (name : string) :
  raises_only_exceptions (analyze_security_events W name).
Proof.
  unfold analyze_security_events, load_json_data.
  repeat first
    [ apply roe_forM_; intro
    | apply roe_ret | apply roe_print | apply roe_get_frame
    | apply roe_put_frame | apply roe_get_column | apply roe_set_column
    | apply roe_lift;
      first [ apply rroe_json_load | apply rroe_subscript
            | apply rroe_pd_DataFrame | apply rroe_value_counts
            | apply rroe_mapM; intro; apply rroe_extract_event_type ]
    | apply roe_bind; [| intro] ].
Qed.

Lemma roe_main_body : raises_only_exceptions (main_body W).
Proof.
  unfold main_body, plot_event_distribution, seaborn_visualization, to_csv.
  repeat first
    [ apply roe_analyze_security_events | apply roe_add_hour
    | apply roe_lib | apply roe_savefig | apply roe_print
    | apply roe_get_frame | apply roe_write_file
    | apply roe_bind; [| intro] ].
Qed.
End Libraries.

Lemma handle_main (e : exn) (st : state) :
  isinstance e CException = true ->
  handle
    [ (CFileNotFoundError, fun _ => print (Print [Lit msg_not_found]));
      (CJSONDecodeError, fun _ => print (Print [Lit msg_bad_json]));
      (CKeyError, fun e => print (Print [Lit (msg_missing_key e)]));
      (CException, fun e => print (Print [Lit (msg_other e)])) ] e st =
  print (Print [Lit (message e)]) st.
Proof. intros He. destruct e; try reflexivity. discriminate He. Qed.

Lemma message_distinct (e1 e2 : exn) :
  taxonomy e1 <> taxonomy e2 -> message e1 <> message e2.
Proof.
  unfold message.
  destruct (taxonomy e1), (taxonomy e2); intros Hne; try congruence;
    unfold msg_not_found, msg_bad_json, msg_missing_key, msg_other, filename;
    simpl; intros H; discriminate H.
Qed.

(** C9.  Whatever fails inside [main], the exception is caught: [main]
    returns, and the last line printed is the message of the class of
    the failure; the messages of two classes differ.  With no input
    file the run prints the message of the missing file and nothing
    else. *)
Theorem main_reports_every_failure (W : world) :
  raises_exceptions W ->
  (forall st, exists st', main W st = (Ok tt, st')) /\
  (forall st e st1,
     main_body W st = (Raise e, st1) ->
     main W st =
       (Ok tt, {| console := (console st1 ++ [Print [Lit (message e)]])%list;
                  files := files st1;
                  frame := frame st1 |})) /\
  (forall e1 e2, taxonomy e1 <> taxonomy e2 -> message e1 <> message e2) /\
  (file_text W filename = None ->
   main W initial =
     (Ok tt, {| console := [Print [Lit msg_not_found]];
                files := [];
                frame := frame initial |})).
Proof.
  intros HW.
  assert (Hraise : forall st e st1,
            main_body W st = (Raise e, st1) ->
            main W st =
              (Ok tt, {| console := (console st1 ++ [Print [Lit (message e)]])%list;
                         files := files st1;
                         frame := frame st1 |})).
  { intros st e st1 H. unfold main, try_except. rewrite H.
    rewrite handle_main by exact (roe_main_body W HW _ _ _ H). reflexivity. }
  split; [| split; [exact Hraise | split; [exact message_distinct |]]].
  - intros st. destruct (main_body W st) as [[[] | e] st1] eqn:H.
    + exists st1. unfold main, try_except. now rewrite H.
    + eexists. exact (Hraise _ _ _ H).
  - intros Hfile.
    assert (H : main_body W initial =
                (Raise (FileNotFoundError
                          ("[Errno 2] No such file or directory: '"
                           ++ filename ++ "'")), initial)).
    { unfold main_body, analyze_security_events, load_json_data, json_load.
      rewrite Hfile. reflexivity. }
    now rewrite (Hraise _ _ _ H).
Qed.

Lemma sample_world_raises_exceptions : raises_exceptions sample_world.
Proof.
  repeat split.
  - intros s df e H. discriminate H.
  - intros v e H. now inversion H.
  - intros v e H. now inversion H.
Qed.

Lemma main_reports_every_failure_witness :
  main empty_world initial =
    (Ok tt, {| console := [Print [Lit msg_not_found]];
               files := [];
               frame := frame initial |}).
Proof.
  apply (main_reports_every_failure empty_world sample_world_raises_exceptions).
  reflexivity.
Defined.

(** * Further properties of the classifier *)

Lemma starts_with_upper_take (s : string) :
  starts_with_upper (take_upper s) = starts_with_upper s.
Proof.
  destruct s as [|c s]; simpl; [reflexivity |].
  destruct (is_upper c) eqn:E; simpl; [exact E | reflexivity].
Qed.

(** The captured part, written with its two runs. *)
Lemma captured_cases (s : string) :
  (captured s = take_upper s /\ remainder s = drop_upper s /\
   starts_with_hyphen (drop_upper s) = false) \/
  (exists r, drop_upper s = String "-" r /\
             captured s = take_upper s ++ "-" ++ take_upper r /\
             remainder s = drop_upper r).
Proof.
  unfold captured, remainder. destruct (drop_upper s) as [|c r] eqn:E.
  - left. now repeat split.
  - destruct (is_hyphen c) eqn:Hc.
    + right. exists r. unfold is_hyphen in Hc.
      apply Ascii.eqb_eq in Hc. now subst c.
    + left. repeat split. simpl. exact Hc.
Qed.

Lemma captured_starts_upper (s : string) :
  starts_with_upper s = true -> starts_with_upper (captured s) = true.
Proof.
  destruct s as [|c s]; [discriminate |]. simpl. intros E.
  unfold captured. simpl. rewrite E.
  destruct (drop_upper s) as [|d r]; simpl; [exact E |].
  destruct (is_hyphen d); simpl; exact E.
Qed.

Lemma captured_upper_rest (u rest : string) :
  all_upper u = true ->
  starts_with_upper rest = false -> starts_with_hyphen rest = false ->
  captured (u ++ rest) = u.
Proof.
  intros Hu Hr Hh. unfold captured.
  rewrite (drop_upper_app u rest Hu Hr), (take_upper_app u rest Hu Hr).
  destruct rest as [|c rest]; [reflexivity |].
  simpl in Hh. now rewrite Hh.
Qed.

Lemma captured_fixed (s : string) : captured (captured s) = captured s.
Proof.
  destruct (captured_cases s) as [(Hc & _ & _) | (r & _ & Hc & _)]; rewrite Hc.
  - pose proof (captured_upper_rest (take_upper s) ""
                  (all_upper_take s) eq_refl eq_refl) as H.
    now rewrite app_empty_r in H.
  - pose proof (captured_two_segments (take_upper s) (take_upper r) ""
                  (all_upper_take s) (all_upper_take r) eq_refl) as H.
    now rewrite !app_empty_r in H.
Qed.

(** X1.  A label is a fixed point of the classifier: classifying a label
    gives the label back. *)
Theorem extract_event_type_idempotent (s r : string) :
  extract_event_type (PStr s) = Ok (PStr r) ->
  extract_event_type (PStr r) = Ok (PStr r).
Proof.
  destruct (starts_with_upper s) eqn:Hs.
  - rewrite (extract_upper s Hs). intros H. inversion H; subst r.
    rewrite (extract_upper _ (captured_starts_upper s Hs)).
    now rewrite captured_fixed.
  - rewrite (extract_not_upper s Hs). intros H. inversion H; subst r.
    reflexivity.
Qed.

Lemma extract_event_type_idempotent_witness :
  extract_event_type (PStr "SQL-INJECTION") = Ok (PStr "SQL-INJECTION").
Proof.
  apply (extract_event_type_idempotent "SQL-INJECTION attempt" "SQL-INJECTION").
  reflexivity.
Defined.

Lemma count_hyphens_app (a b : string) :
  count_hyphens (a ++ b) = count_hyphens a + count_hyphens b.
Proof.
  induction a as [|c a IH]; simpl; [reflexivity | rewrite IH; lia].
Qed.

Lemma count_hyphens_upper (u : string) :
  all_upper u = true -> count_hyphens u = 0.
Proof.
  induction u as [|c u IH]; simpl; [reflexivity |].
  intros H. apply andb_true_iff in H as [Hc Hu].
  destruct (is_hyphen c) eqn:E.
  - apply hyphen_not_upper in E. congruence.
  - now rewrite IH.
Qed.

(** X2.  Every label starts with an uppercase letter and holds at most
    one hyphen. *)
Theorem extract_event_type_label_shape (s r : string) :
  extract_event_type (PStr s) = Ok (PStr r) ->
  starts_with_upper r = true /\ count_hyphens r <= 1.
Proof.
  destruct (starts_with_upper s) eqn:Hs.
  - rewrite (extract_upper s Hs). intros H. inversion H; subst r.
    split; [now apply captured_starts_upper |].
    destruct (captured_cases s) as [(Hc & _ & _) | (r & _ & Hc & _)]; rewrite Hc.
    + rewrite count_hyphens_upper by apply all_upper_take. lia.
    + rewrite !count_hyphens_app.
      rewrite (count_hyphens_upper (take_upper s) (all_upper_take s)).
      rewrite (count_hyphens_upper (take_upper r) (all_upper_take r)).
      change (count_hyphens "-") with 1. lia.
  - rewrite (extract_not_upper s Hs). intros H. inversion H; subst r.
    split; [reflexivity | vm_compute; lia].
Qed.

Lemma extract_event_type_label_shape_witness :
  starts_with_upper "DDOS-SYN" = true /\ count_hyphens "DDOS-SYN" <= 1.
Proof.
  apply (extract_event_type_label_shape "DDOS-SYN-FLOOD from 10.0.0.7").
  reflexivity.
Defined.

(** X3.  Once the run has ended inside the signature, what is written
    after has no effect: a signature and any extension of it get the
    same label. *)
Theorem extract_event_type_extension (s t : string) :
  remainder s <> "" \/ (starts_with_upper s = false /\ s <> "") ->
  extract_event_type (PStr (s ++ t)) = extract_event_type (PStr s).
Proof.
  assert (Hnot : forall c s0, starts_with_upper (String c s0) = false ->
            extract_event_type (PStr (String c s0 ++ t)) =
            extract_event_type (PStr (String c s0))).
  { intros c s0 H. now rewrite !extract_not_upper. }
  intros [Hrem | [Hs Hne]]; [| destruct s; [congruence | now apply Hnot]].
  destruct (starts_with_upper s) eqn:Hs;
    [| destruct s; [now elim Hrem | now apply Hnot]].
  assert (Hst : starts_with_upper (s ++ t) = true)
    by (destruct s; [discriminate | exact Hs]).
  rewrite (extract_upper _ Hs), (extract_upper _ Hst). do 2 f_equal.
  replace (s ++ t) with (take_upper s ++ (drop_upper s ++ t))
    by (now rewrite <- app_assoc_s, take_drop_upper).
  destruct (captured_cases s) as [(Hc & Hr & Hh) | (r & Hd & Hc & Hr)];
    rewrite Hc; rewrite Hr in Hrem.
  - pose proof (drop_upper_starts s) as Hu.
    destruct (drop_upper s) as [|c rest]; [congruence |].
    apply captured_upper_rest; [apply all_upper_take | exact Hu | exact Hh].
  - rewrite Hd.
    replace (String "-" r ++ t)
      with ("-" ++ take_upper r ++ (drop_upper r ++ t))
      by (simpl; now rewrite <- app_assoc_s, take_drop_upper).
    apply captured_two_segments;
      [apply all_upper_take | apply all_upper_take |].
    pose proof (drop_upper_starts r) as Hu.
    destruct (drop_upper r) as [|c rest]; [congruence | exact Hu].
Qed.

Lemma extract_event_type_extension_witness :
  extract_event_type (PStr ("PORTSCAN detected" ++ " on port 22")) =
  extract_event_type (PStr "PORTSCAN detected").
Proof.
  apply (extract_event_type_extension "PORTSCAN detected" " on port 22").
  left. discriminate.
Defined.

(** * Further properties of the frequency table *)

Lemma label_eqb_str (a b : pyval) :
  is_str a = true -> (label_eqb a b = true <-> a = b).
Proof.
  destruct a; try discriminate. intros _. destruct b; simpl;
    try (split; [discriminate | congruence]).
  rewrite String.eqb_eq. split; congruence.
Qed.

Lemma label_eqb_refl (a : pyval) : is_str a = true -> label_eqb a a = true.
Proof. intros H. now apply (label_eqb_str a a H). Qed.

Lemma occurrences_cons (l v : pyval) (col : list pyval) :
  occurrences l (v :: col) =
  (if label_eqb l v then 1 else 0) + occurrences l col.
Proof. unfold occurrences. simpl. now destruct (label_eqb l v). Qed.

(** One more occurrence in a table whose labels are distinct strings. *)
Lemma count_one_in (v : pyval) (table : list (pyval * nat)) :
  is_str v = true ->
  NoDup (map fst table) ->
  NoDup (map fst (count_one v table)) /\
  forall l n,
    In (l, n) (count_one v table) <->
    (l <> v /\ In (l, n) table) \/
    (l = v /\ ((exists m, In (v, m) table /\ n = S m) \/
               (~ In v (map fst table) /\ n = 1))).
Proof.
  intros Hv. induction table as [|[w k] table IH]; intros Hnd.
  - simpl. split; [repeat constructor; auto |].
    intros l n. split.
    + intros [H | []]. inversion H; subst. right. split; [reflexivity |].
      right. now split.
    + intros [[_ []] | [-> [(m & [] & _) | [_ ->]]]]. now left.
  - inversion Hnd as [|x xs Hw Hnd']; subst x xs.
    specialize (IH Hnd') as [IHnd IHin].
    cbn [count_one]. destruct (label_eqb v w) eqn:E.
    + apply (label_eqb_str v w Hv) in E. subst w.
      split; [exact Hnd |]. intros l n. cbn [In]. split.
      * intros [H | H].
        -- inversion H; subst. right. split; [reflexivity |].
           left. exists k. split; [now left | reflexivity].
        -- assert (l <> v)
             by (intros ->; apply Hw; now apply (in_map fst _ (v, n))).
           left. split; [assumption | now right].
      * intros [[Hne [H | H]] | [-> [(m & [H | H] & ->) | [H _]]]].
        -- inversion H; subst. congruence.
        -- now right.
        -- inversion H; subst. now left.
        -- exfalso. apply Hw. now apply (in_map fst _ (v, m)).
        -- exfalso. apply H. now left.
    + assert (Hne : w <> v)
        by (intros ->; rewrite (label_eqb_refl v Hv) in E; discriminate).
      split.
      * cbn [map fst]. constructor; [| exact IHnd].
        intros Hin. apply in_map_iff in Hin as ([l n] & Hl & Hin).
        simpl in Hl. subst l. apply IHin in Hin
          as [[_ Hin] | [-> _]]; [| congruence].
        apply Hw. now apply (in_map fst _ (w, n)).
      * intros l n. cbn [In]. rewrite IHin. split.
        -- intros [H | [[Hl H] | [-> [(m & H & ->) | [H ->]]]]].
           ++ inversion H; subst. left. split; [exact Hne | now left].
           ++ left. split; [exact Hl | now right].
           ++ right. split; [reflexivity |]. left. exists m.
              split; [now right | reflexivity].
           ++ right. split; [reflexivity |]. right. split; [| reflexivity].
              cbn [map fst In]. intros [Hw' | Hin]; [congruence | now apply H].
        -- intros [[Hl [H | H]] | [-> [(m & [H | H] & ->) | [H ->]]]].
           ++ now left.
           ++ right. left. now split.
           ++ inversion H; subst. congruence.
           ++ right. right. split; [reflexivity |]. left. now exists m.
           ++ right. right. split; [reflexivity |]. right.
              split; [| reflexivity]. intros Hin. apply H. now right.
Qed.

Lemma occurrences_absent (v : pyval) (col : list pyval) :
  is_str v = true -> ~ In v col -> occurrences v col = 0.
Proof.
  intros Hv. unfold occurrences. induction col as [|x col IH]; simpl;
    [reflexivity |].
  intros Hn. destruct (label_eqb v x) eqn:E.
  - apply (label_eqb_str v x Hv) in E. subst x. exfalso. apply Hn. now left.
  - apply IH. intros H. apply Hn. now right.
Qed.

Lemma occurrences_pos (v : pyval) (col : list pyval) :
  is_str v = true -> (In v col <-> 0 < occurrences v col).
Proof.
  intros Hv. split.
  - intros Hin. destruct (occurrences v col) eqn:E; [| lia].
    exfalso. revert E. unfold occurrences.
    induction col as [|x col IH]; [destruct Hin |]. simpl.
    destruct Hin as [-> | Hin].
    + rewrite (label_eqb_refl v Hv). discriminate.
    + destruct (label_eqb v x); [discriminate | now apply IH].
  - intros Hpos. destruct (occurrences v col) eqn:E; [lia |]. clear Hpos.
    revert E. unfold occurrences.
    induction col as [|x col IH]; simpl; [discriminate |].
    destruct (label_eqb v x) eqn:Ex.
    + apply (label_eqb_str v x Hv) in Ex. subst x. now left.
    + intros E. right. now apply IH.
Qed.

Lemma label_eqb_neq (l v : pyval) :
  is_str l = true -> l <> v -> label_eqb l v = false.
Proof.
  intros Hl Hne. destruct (label_eqb l v) eqn:E; [| reflexivity].
  now apply (label_eqb_str l v Hl) in E.
Qed.

(** Counting a column of strings cell by cell. *)
Lemma count_fold (col : list pyval) :
  forall (P : list pyval) (table : list (pyval * nat)),
    forallb is_str col = true ->
    (forall l, In l P -> is_str l = true) ->
    NoDup (map fst table) ->
    (forall l n, In (l, n) table <-> In l P /\ n = occurrences l P) ->
    let table' := fold_left (fun t v => count_one v t) col table in
    NoDup (map fst table') /\
    forall l n,
      In (l, n) table' <->
      (In l col \/ In l P) /\ n = occurrences l col + occurrences l P.
Proof.
  induction col as [|v col IH]; intros P table Hcol HP Hnd Htab.
  - simpl. split; [exact Hnd |]. intros l n. rewrite Htab.
    unfold occurrences at 2. simpl. tauto.
  - simpl in Hcol. apply andb_true_iff in Hcol as [Hv Hcol].
    destruct (count_one_in v table Hv Hnd) as [Hnd1 Hin1].
    assert (Hkeys : forall k, In k (map fst table) -> In k P).
    { intros k Hk. apply in_map_iff in Hk as ([l n] & <- & Hk).
      now apply Htab in Hk. }
    assert (Hstep : forall l n,
              In (l, n) (count_one v table) <->
              In l (v :: P) /\ n = occurrences l (v :: P)).
    { intros l n. rewrite Hin1, occurrences_cons. split.
      - intros [[Hne H] | [-> [(m & H & ->) | [H ->]]]].
        + apply Htab in H as [Hl ->].
          rewrite (label_eqb_neq l v (HP l Hl) Hne). split; [now right | lia].
        + apply Htab in H as [_ ->]. rewrite (label_eqb_refl v Hv).
          split; [now left | lia].
        + rewrite (label_eqb_refl v Hv).
          rewrite (occurrences_absent v P Hv) by (intros Hin; apply H;
            apply (in_map fst _ (v, occurrences v P)); now apply Htab).
          split; [now left | lia].
      - intros [[<- | Hl] ->].
        + right. split; [reflexivity |]. rewrite (label_eqb_refl v Hv).
          destruct (occurrences v P) as [|m] eqn:E.
          * right. split; [| reflexivity]. intros Hin. apply Hkeys in Hin.
            apply (occurrences_pos v P Hv) in Hin. lia.
          * left. exists (S m). split; [| reflexivity].
            apply Htab. split; [| now rewrite E].
            apply (occurrences_pos v P Hv). lia.
        + destruct (label_eqb l v) eqn:E.
          * apply (label_eqb_str l v (HP l Hl)) in E. subst l.
            right. split; [reflexivity |]. left.
            exists (occurrences v P). split; [now apply Htab | reflexivity].
          * left. split; [| now apply Htab].
            intros ->. now rewrite (label_eqb_refl v Hv) in E. }
    assert (HP1 : forall l, In l (v :: P) -> is_str l = true)
      by (intros l [<- | Hl]; [exact Hv | now apply HP]).
    destruct (IH (v :: P) (count_one v table) Hcol HP1 Hnd1 Hstep) as [Hnd' Hin'].
    split; [exact Hnd' |]. intros l n. cbn [fold_left]. rewrite Hin'.
    rewrite !occurrences_cons. cbn [In]. split.
    * intros [[H | [H | H]] ->]; (split; [tauto | lia]).
    * intros [[[H | H] | H] ->]; (split; [tauto | lia]).
Qed.

Lemma insert_desc_perm (e : pyval * nat) (l : list (pyval * nat)) :
  Permutation (insert_desc e l) (e :: l).
Proof.
  induction l as [|e' l IH]; simpl; [reflexivity |].
  destruct (snd e' <=? snd e)%nat; [reflexivity |].
  rewrite IH. apply perm_swap.
Qed.

Lemma sort_desc_perm (l : list (pyval * nat)) : Permutation (sort_desc l) l.
Proof.
  unfold sort_desc. induction l as [|e l IH]; simpl; [reflexivity |].
  now rewrite insert_desc_perm, IH.
Qed.

Lemma insert_desc_sorted (e : pyval * nat) (l : list (pyval * nat)) :
  Sorted by_count_desc l -> Sorted by_count_desc (insert_desc e l).
Proof.
  induction l as [|e' l IH]; simpl; intros Hs.
  - repeat constructor.
  - destruct (snd e' <=? snd e)%nat eqn:E.
    + constructor; [exact Hs |]. constructor.
      unfold by_count_desc. now apply Nat.leb_le.
    + inversion Hs as [|x xs Hs' Hhd]; subst x xs.
      constructor; [now apply IH |].
      apply Nat.leb_gt in E.
      destruct l as [|e'' l]; simpl.
      * constructor. unfold by_count_desc. lia.
      * destruct (snd e'' <=? snd e)%nat.
        -- constructor. unfold by_count_desc. lia.
        -- constructor. now inversion Hhd.
Qed.

Lemma sort_desc_sorted (l : list (pyval * nat)) :
  Sorted by_count_desc (sort_desc l).
Proof.
  unfold sort_desc. induction l as [|e l IH]; simpl; [constructor |].
  now apply insert_desc_sorted.
Qed.

(** The frequency table of a column of strings. *)
Lemma value_counts_strings (col : list pyval) (counts : list (pyval * nat)) :
  forallb is_str col = true ->
  value_counts col = Ok counts ->
  NoDup (map fst counts) /\
  (forall l n, In (l, n) counts <-> In l col /\ n = occurrences l col) /\
  Sorted by_count_desc counts.
Proof.
  intros Hstr. unfold value_counts.
  destruct (forallb hashable col); [| discriminate].
  intros H. inversion H; subst counts. clear H.
  replace (filter (fun v => negb (isna v)) col) with col
    by (symmetry; apply forallb_filter_id;
        apply (forallb_impl is_str); [now intros [] | exact Hstr]).
  destruct (count_fold col [] [] Hstr) as [Hnd Hin].
  - intros l [].
  - constructor.
  - intros l n. simpl. tauto.
  - cbv zeta in Hnd, Hin.
    pose proof (sort_desc_perm
                  (fold_left (fun t v => count_one v t) col [])) as Hp.
    split; [| split; [| apply sort_desc_sorted]].
    + apply (Permutation_NoDup (Permutation_sym (Permutation_map fst Hp)) Hnd).
    + intros l n. rewrite (Permutation_in' eq_refl Hp), Hin.
      unfold occurrences at 2. simpl. rewrite Nat.add_0_r. tauto.
Qed.

(** X4.  The frequency table of [analyze_security_events] is exact: its
    labels are the labels of the [event_type] column, each listed once
    with the number of its cells. *)
Theorem event_counts_exact (W : world) (st st' : state)
    (counts : list (pyval * nat)) :
  analyze_security_events W filename st = (Ok counts, st') ->
  exists types,
    getitem (frame st') "event_type" = Ok types /\
    NoDup (map fst counts) /\
    forall l n, In (l, n) counts <-> In l types /\ n = occurrences l types.
Proof.
  intros H. apply analyze_security_events_ok in H as (df & _ & Hc & _).
  destruct (classified_column _ _ _ Hc) as (sigs & types & _ & Ht & _ & Hstr & _).
  destruct Hc as (sigs' & types' & _ & _ & Hv & Hf).
  rewrite Hf, getitem_setitem_same in Ht. inversion Ht; subst types'.
  exists types. split; [rewrite Hf; apply getitem_setitem_same |].
  destruct (value_counts_strings types counts Hstr Hv) as (Hnd & Hin & _).
  now split.
Qed.

Lemma event_counts_exact_witness :
  exists st' counts,
    analyze_security_events sample_world filename initial = (Ok counts, st') /\
    NoDup (map fst counts).
Proof.
  destruct (analyze_security_events sample_world filename initial)
    as [[counts | e] st'] eqn:H.
  - exists st', counts. split; [reflexivity |].
    destruct (event_counts_exact sample_world initial st' counts H)
      as (types & _ & Hnd & _).
    exact Hnd.
  - vm_compute in H. discriminate H.
Defined.

(** X5.  The frequency table lists the labels by descending count. *)
Theorem event_counts_sorted (W : world) (st st' : state)
    (counts : list (pyval * nat)) :
  analyze_security_events W filename st = (Ok counts, st') ->
  Sorted by_count_desc counts.
Proof.
  intros H. apply analyze_security_events_ok in H as (df & _ & Hc & _).
  destruct (classified_column _ _ _ Hc) as (sigs & types & _ & Ht & _ & Hstr & _).
  destruct Hc as (sigs' & types' & _ & _ & Hv & Hf).
  rewrite Hf, getitem_setitem_same in Ht. inversion Ht; subst types'.
  now destruct (value_counts_strings types counts Hstr Hv) as (_ & _ & Hs).
Qed.

Lemma event_counts_sorted_witness :
  exists st' counts,
    analyze_security_events sample_world filename initial = (Ok counts, st') /\
    Sorted by_count_desc counts.
Proof.
  destruct (analyze_security_events sample_world filename initial)
    as [[counts | e] st'] eqn:H.
  - exists st', counts. split; [reflexivity |].
    exact (event_counts_sorted sample_world initial st' counts H).
  - vm_compute in H. discriminate H.
Defined.

Lemma label_eqb_sym (a b : pyval) : label_eqb a b = label_eqb b a.
Proof.
  destruct a, b; simpl; try reflexivity.
  - now destruct b, b0.
  - apply Z.eqb_sym.
  - apply String.eqb_sym.
  - apply String.eqb_sym.
  - apply Z.eqb_sym.
Qed.

Lemma filter_combine_length {A B : Type} (p : B -> bool) (a : list A) :
  forall b, List.length a = List.length b ->
  List.length (filter (fun ab => p (snd ab)) (combine a b)) =
  List.length (filter p b).
Proof.
  induction a as [|x a IH]; intros [|y b] Hlen; simpl in *; try discriminate;
    [reflexivity |].
  destruct (p y); simpl; rewrite IH; auto.
Qed.

Lemma in_firstn {A : Type} (n : nat) (l : list A) (x : A) :
  In x (firstn n l) -> In x l.
Proof.
  revert l. induction n as [|n IH]; intros [|y l]; simpl; try tauto.
  intros [H | H]; [now left | right; now apply IH].
Qed.

Lemma mapM_combine {A B : Type} (f : A -> result B) (l : list A) (l' : list B) :
  mapM f l = Ok l' -> forall a b, In (a, b) (combine l l') -> f a = Ok b.
Proof.
  revert l'. induction l as [|x l IH]; simpl; intros l' H a b Hin.
  - inversion H; subst. destruct Hin.
  - destruct (f x) as [y |] eqn:E; [| discriminate].
    destruct (mapM f l) as [ys |]; [| discriminate].
    inversion H; subst. destruct Hin as [Hin | Hin].
    + now inversion Hin; subst.
    + now apply (IH ys eq_refl).
Qed.

(** * Further properties of the run *)

Lemma bind_ret_l {A B : Type} (m : M A) (f : A -> M B) (st st1 : state) (a : A) :
  m st = (Ok a, st1) -> bind m f st = f a st1.
Proof. unfold bind. now intros ->. Qed.

Lemma bind_raise_l {A B : Type} (m : M A) (f : A -> M B) (st st1 : state)
    (e : exn) :
  m st = (Raise e, st1) -> bind m f st = (Raise e, st1).
Proof. unfold bind. now intros ->. Qed.

Lemma load_json_data_loaded (W : world) (st : state) :
  load_json_data W filename st =
  match loaded W with
  | Ok df => (Ok tt, {| console := console st; files := files st; frame := df |})
  | Raise e => (Raise e, st)
  end.
Proof.
  unfold load_json_data, loaded, bind.
  destruct (json_load W filename) as [data | e]; [| reflexivity]. simpl.
  destruct (subscript data "events") as [events | e]; [| reflexivity]. simpl.
  destruct (pd_DataFrame W events) as [df | e]; reflexivity.
Qed.

Lemma main_of_failure (W : world) (st st1 : state) (e : exn) :
  isinstance e CException = true ->
  main_body W st = (Raise e, st1) ->
  main W st =
    (Ok tt, {| console := (console st1 ++ [Print [Lit (message e)]])%list;
               files := files st1;
               frame := frame st1 |}).
Proof.
  intros He H. unfold main, try_except. rewrite H.
  now rewrite handle_main.
Qed.

Lemma main_body_load_failure (W : world) (st : state) (e : exn) :
  loaded W = Raise e -> main_body W st = (Raise e, st).
Proof.
  intros H. unfold main_body, analyze_security_events.
  apply bind_raise_l, bind_raise_l. now rewrite load_json_data_loaded, H.
Qed.

(** X7.  The failures of the loader, as [main] reports them: a file that
    is not JSON gives the message of malformed JSON, a document without
    the key [events] the message of the missing key with the key named,
    a document that is a list the message of the other errors; in each
    case nothing else is printed and no file is written. *)
Theorem main_loader_failures (W : world) (text : string) :
  file_text W filename = Some text ->
  (forall msg, json_loads W text = inr msg ->
     main W initial =
       (Ok tt, {| console := [Print [Lit msg_bad_json]];
                  files := []; frame := frame initial |})) /\
  (forall items, json_loads W text = inl (PDict items) ->
     lookup "events" items = None ->
     main W initial =
       (Ok tt, {| console :=
                    [Print [Lit ("Ошибка: В данных отсутствует ключ 'events'")]];
                  files := []; frame := frame initial |})) /\
  (forall items, json_loads W text = inl (PList items) ->
     main W initial =
       (Ok tt, {| console :=
                    [Print [Lit ("Произошла ошибка: " ++
                       "list indices must be integers or slices, not str")]];
                  files := []; frame := frame initial |})).
Proof.
  intros Hfile. split; [| split].
  - intros msg Hjson.
    apply (main_of_failure W initial initial (JSONDecodeError msg) eq_refl).
    apply main_body_load_failure. unfold loaded, json_load.
    now rewrite Hfile, Hjson.
  - intros items Hjson Hkey.
    apply (main_of_failure W initial initial (KeyError "events") eq_refl).
    apply main_body_load_failure. unfold loaded, json_load.
    rewrite Hfile, Hjson. simpl. now rewrite Hkey.
  - intros items Hjson.
    apply (main_of_failure W initial initial
             (TypeError "list indices must be integers or slices, not str")
             eq_refl).
    apply main_body_load_failure. unfold loaded, json_load.
    now rewrite Hfile, Hjson.
Qed.

Lemma main_loader_failures_witness :
  main world_bad_json initial =
    (Ok tt, {| console := [Print [Lit msg_bad_json]];
               files := []; frame := frame initial |}).
Proof.
  apply (proj1 (main_loader_failures world_bad_json "{...}" eq_refl)
           "Expecting value: line 1 column 1 (char 0)").
  reflexivity.
Defined.

Lemma analyze_until_signature (W : world) (st : state) (df : DataFrame) :
  loaded W = Ok df ->
  forall (k : list pyval -> M (list (pyval * nat))),
    (load_json_data W filename ;;
     print (Print [Lit "Первые 5 строк данных:"]) ;;
     d <- get_frame ;;
     print (PrintFrame (head d)) ;;
     print (Print [Lit rule]) ;;
     signatures <- get_column "signature" ;;
     k signatures) st =
    (signatures <- lift (getitem df "signature") ;; k signatures)
      {| console := (console st ++
                       [Print [Lit "Первые 5 строк данных:"];
                        PrintFrame (head df);
                        Print [Lit rule]])%list;
         files := files st;
         frame := df |}.
Proof.
  intros Hl k. unfold bind at 1. rewrite load_json_data_loaded, Hl.
  unfold bind, print, get_frame, get_column. cbn [console files frame fst snd].
  rewrite <- !app_assoc. reflexivity.
Qed.

(** X8.  A table without the column [signature] - the table of an empty
    [events] array is one - is reported as the missing key 'signature',
    after the head of the table has been shown; no file is written. *)
Theorem main_missing_signature (W : world) (df : DataFrame) :
  loaded W = Ok df ->
  lookup "signature" (columns df) = None ->
  main W initial =
    (Ok tt, {| console :=
                 [Print [Lit "Первые 5 строк данных:"];
                  PrintFrame (head df);
                  Print [Lit rule];
                  Print [Lit "Ошибка: В данных отсутствует ключ 'signature'"]];
               files := [];
               frame := df |}).
Proof.
  intros Hl Hsig.
  rewrite (main_of_failure W initial
             {| console := [Print [Lit "Первые 5 строк данных:"];
                            PrintFrame (head df); Print [Lit rule]];
                files := []; frame := df |}
             (KeyError "signature") eq_refl); [reflexivity |].
  unfold main_body. apply bind_raise_l.
  unfold analyze_security_events. rewrite (analyze_until_signature W _ df Hl).
  apply bind_raise_l. unfold getitem. now rewrite Hsig.
Qed.

Lemma main_missing_signature_witness :
  main (world_with (PDict [("events", PList [])])) initial =
    (Ok tt, {| console :=
                 [Print [Lit "Первые 5 строк данных:"];
                  PrintFrame (head (frame_of_records (infer_cell sample_world) []));
                  Print [Lit rule];
                  Print [Lit "Ошибка: В данных отсутствует ключ 'signature'"]];
               files := [];
               frame := frame_of_records (infer_cell sample_world) [] |}).
Proof.
  apply (main_missing_signature (world_with (PDict [("events", PList [])]))
           (frame_of_records (infer_cell sample_world) [])); reflexivity.
Defined.

Lemma mapM_extract_non_string (signatures : list pyval) :
  (exists v, In v signatures /\ is_str v = false) ->
  mapM extract_event_type signatures =
  Raise (TypeError "expected string or bytes-like object").
Proof.
  intros (v & Hin & Hv). induction signatures as [|x l IH]; [destruct Hin |].
  simpl. destruct (extract_event_type x) as [r | e] eqn:E.
  - destruct Hin as [-> | Hin].
    + destruct v; try discriminate E. discriminate Hv.
    + now rewrite (IH Hin).
  - destruct x; simpl in E; try (now inversion E).
    destruct (Re.re_match event_type_pattern s); discriminate.
Qed.

(** X9.  One signature that is not a string - the cell of a record
    without the field is NaN - fails the whole classification: the run
    reports, among the other errors, the type error [re.match] raises
    on such a cell; the table keeps no column [event_type], and no file
    is written. *)
Theorem main_non_string_signature (W : world) (df : DataFrame)
    (signatures : list pyval) :
  loaded W = Ok df ->
  getitem df "signature" = Ok signatures ->
  (exists v, In v signatures /\ is_str v = false) ->
  exists v text,
    In v signatures /\ is_str v = false /\
    extract_event_type v = Raise (TypeError text) /\
    main W initial =
      (Ok tt, {| console :=
                   [Print [Lit "Первые 5 строк данных:"];
                    PrintFrame (head df);
                    Print [Lit rule];
                    Print [Lit ("Произошла ошибка: " ++ text)]];
                 files := [];
                 frame := df |}).
Proof.
  intros Hl Hsig Hv. destruct Hv as (v & Hin & Hstr).
  exists v, "expected string or bytes-like object".
  split; [exact Hin |]. split; [exact Hstr |].
  split; [destruct v; try reflexivity; discriminate Hstr |].
  rewrite (main_of_failure W initial
             {| console := [Print [Lit "Первые 5 строк данных:"];
                            PrintFrame (head df); Print [Lit rule]];
                files := []; frame := df |}
             (TypeError "expected string or bytes-like object") eq_refl);
    [reflexivity |].
  unfold main_body. apply bind_raise_l.
  unfold analyze_security_events. rewrite (analyze_until_signature W _ df Hl).
  rewrite Hsig. simpl lift. rewrite (bind_ret_l _ _ _ _ signatures eq_refl).
  apply bind_raise_l.
  rewrite (mapM_extract_non_string signatures); [reflexivity |].
  now exists v.
Qed.

Lemma main_non_string_signature_witness :
  exists v text,
    In v [PStr "PORTSCAN detected on port 22"; PNaN] /\
    is_str v = false /\
    extract_event_type v = Raise (TypeError text) /\
    main ragged_world initial =
      (Ok tt, {| console :=
                   [Print [Lit "Первые 5 строк данных:"];
                    PrintFrame (head (frame_of_records (infer_cell sample_world) ragged_records));
                    Print [Lit rule];
                    Print [Lit ("Произошла ошибка: " ++ text)]];
                 files := [];
                 frame := frame_of_records (infer_cell sample_world) ragged_records |}).
Proof.
  apply (main_non_string_signature ragged_world
           (frame_of_records (infer_cell sample_world) ragged_records)
           [PStr "PORTSCAN detected on port 22"; PNaN]);
    [reflexivity | reflexivity |].
  exists PNaN. split; [right; left; reflexivity | reflexivity].
Defined.











(** Running the two statements again changes nothing. *)
Lemma hour_added_again (W : world) (df df' df'' : DataFrame) :
  hour_added W df df' -> hour_added W df' df'' -> df'' = df'.
Proof.
  intros H1 H2.
  destruct (hour_added_columns W df df' H1)
    as (stamps & parsed & hours & _ & Hp & Hh & Hparse & Hhour).
  destruct H2 as (stamps2 & parsed2 & hours2 & Hs2 & Hp2 & Hh2 & ->).
  rewrite Hp in Hs2. inversion Hs2; subst stamps2.
  rewrite (mapM_idem _ _ _ (to_datetime_cell_idem _) Hparse) in Hp2.
  inversion Hp2; subst parsed2.
  rewrite Hhour in Hh2. inversion Hh2; subst hours2.
  assert (Hid : forall d key col,
            getitem d key = Ok col -> setitem d key col = d).
  { intros [n cols] key col. unfold getitem, setitem. cbn [nrows columns].
    intros H. f_equal.
    induction cols as [|[k c] cols IH]; simpl in *; [discriminate |].
    destruct (String.eqb_spec key k) as [-> | Hne].
    - now inversion H.
    - now rewrite IH. }
  rewrite (Hid df' "timestamp" parsed Hp).
  now rewrite (Hid df' "hour" hours Hh).
Qed.

(** X11.  [seaborn_visualization] converts the timestamps and computes
    the hours a second time; after [plot_event_distribution] this leaves
    the table as it is. *)
Theorem seaborn_visualization_keeps_table (W : world)
    (counts : list (pyval * nat)) (st st1 st2 st3 : state) :
  plot_event_distribution W counts st = (Ok tt, st1) ->
  frame st2 = frame st1 ->
  seaborn_visualization W counts st2 = (Ok tt, st3) ->
  frame st3 = frame st1.
Proof.
  intros H1 Hfr H2.
  apply plot_event_distribution_ok in H1 as [H1 _].
  apply seaborn_visualization_ok in H2 as [H2 _].
  rewrite Hfr in H2. exact (hour_added_again W _ _ _ H1 H2).
Qed.

Lemma seaborn_visualization_keeps_table_witness :
  exists st1 st3,
    plot_event_distribution sample_world [] sample_analyzed = (Ok tt, st1) /\
    seaborn_visualization sample_world [] st1 = (Ok tt, st3) /\
    frame st3 = frame st1.
Proof.
  destruct (plot_event_distribution sample_world [] sample_analyzed)
    as [[[] | e] st1] eqn:H1; [| vm_compute in H1; discriminate H1].
  destruct (seaborn_visualization sample_world [] st1)
    as [[[] | e] st3] eqn:H2.
  - exists st1, st3. split; [reflexivity |]. split; [exact H2 |].
    exact (seaborn_visualization_keeps_table sample_world [] _ _ _ _
             H1 eq_refl H2).
  - exfalso. vm_compute in H1. inversion H1; subst st1.
    vm_compute in H2. discriminate H2.
Defined.







(** ** What a failed run leaves behind *)





















(** ** The hour column and the text of a timestamp *)

Lemma digit_range (c : ascii) (d : Z) :
  Datetime.digit c = Some d -> (0 <= d <= 9)%Z.
Proof.
  unfold Datetime.digit.
  destruct (_ && _)%bool eqn:H; [| discriminate].
  intros [= <-]. apply andb_true_iff in H as [H1 H2].
  apply Z.leb_le in H1, H2. lia.
Qed.

Lemma number_two (acc : Z) (s : string) (v : Z) (r : string) :
  Datetime.number 2 acc s = Some (v, r) ->
  exists c1 c2 d1 d2,
    s = String c1 (String c2 r) /\
    Datetime.digit c1 = Some d1 /\ Datetime.digit c2 = Some d2 /\
    v = (10 * (10 * acc + d1) + d2)%Z.
Proof.
  destruct s as [| c1 [| c2 s]]; simpl; try discriminate.
  - destruct (Datetime.digit c1); discriminate.
  - destruct (Datetime.digit c1) as [d1 |] eqn:H1; [| discriminate].
    destruct (Datetime.digit c2) as [d2 |] eqn:H2; [| discriminate].
    intros [= <- <-]. now exists c1, c2, d1, d2.
Qed.

Lemma number_four (s : string) (v : Z) (r : string) :
  Datetime.number 4 0 s = Some (v, r) ->
  exists c1 c2 c3 c4, s = String c1 (String c2 (String c3 (String c4 r))).
Proof.
  destruct s as [| c1 [| c2 s]]; simpl; try discriminate.
  - destruct (Datetime.digit c1); discriminate.
  - destruct (Datetime.digit c1) as [d1 |]; [| discriminate].
    destruct (Datetime.digit c2) as [d2 |]; [| discriminate].
    intros H. apply number_two in H as (c3 & c4 & _ & _ & -> & _).
    now exists c1, c2, c3, c4.
Qed.

Lemma expect_inv (c : ascii) (s r : string) :
  Datetime.expect c s = Some r -> s = String c r.
Proof.
  destruct s as [| c' s]; simpl; [discriminate |].
  destruct (Ascii.eqb c c') eqn:H; [| discriminate].
  apply Ascii.eqb_eq in H. now intros [= <-]; subst.
Qed.

Lemma hour_of_fields (days hh mi ss : Z) :
  (0 <= hh <= 23)%Z -> (0 <= mi <= 59)%Z -> (0 <= ss <= 59)%Z ->
  Datetime.hour ((((days * 24 + hh) * 60 + mi) * 60 + ss)
                 * Datetime.ns_per_second) = hh.
Proof.
  intros Hh Hm Hs.
  unfold Datetime.hour, Datetime.ns_per_hour, Datetime.ns_per_second.
  replace ((((days * 24 + hh) * 60 + mi) * 60 + ss) * 1000000000
           / (3600 * 1000000000))%Z with (days * 24 + hh)%Z.
  - symmetry. apply Z.mod_unique with (q := days); lia.
  - apply Z.div_unique with (r := ((mi * 60 + ss) * 1000000000)%Z); lia.
Qed.

(** The layout of a string [parse_iso8601] accepts, and the hour of the
    instant it gives. *)
Lemma parse_iso8601_hour (s : string) (ns : Z) :
  Datetime.parse_iso8601 s = Some ns ->
  Datetime.number 2 0 (substring 11 2 s) = Some (Datetime.hour ns, "").
Proof.
  unfold Datetime.parse_iso8601. intros Hp.
  destruct (Datetime.number 4 0 s) as [[y s1] |] eqn:Hy; [| discriminate].
  destruct (Datetime.expect "-" s1) as [s2 |] eqn:E1; [| discriminate].
  destruct (Datetime.number 2 0 s2) as [[m s3] |] eqn:Hm; [| discriminate].
  destruct (Datetime.expect "-" s3) as [s4 |] eqn:E2; [| discriminate].
  destruct (Datetime.number 2 0 s4) as [[d s5] |] eqn:Hd; [| discriminate].
  assert (Hsep : forall s6,
             match Datetime.expect "T" s5 with
             | Some r => Some r
             | None => Datetime.expect " " s5
             end = Some s6 -> exists c, s5 = String c s6).
  { intros s6 H. destruct (Datetime.expect "T" s5) as [r |] eqn:ET.
    - injection H as ->. apply expect_inv in ET. now exists "T"%char.
    - apply expect_inv in H. now exists " "%char. }
  destruct (match Datetime.expect "T" s5 with
            | Some r => Some r
            | None => Datetime.expect " " s5
            end) as [s6 |]; [| discriminate].
  destruct (Hsep s6 eq_refl) as (sep & ->). clear Hsep.
  destruct (Datetime.number 2 0 s6) as [[hh s7] |] eqn:Hh; [| discriminate].
  destruct (Datetime.expect ":" s7) as [s8 |] eqn:E3; [| discriminate].
  destruct (Datetime.number 2 0 s8) as [[mi s9] |] eqn:Hmi; [| discriminate].
  destruct (Datetime.expect ":" s9) as [s10 |] eqn:E4; [| discriminate].
  destruct (Datetime.number 2 0 s10) as [[ss r] |] eqn:Hs; [| discriminate].
  destruct r; [| discriminate].
  destruct (_ && _)%bool eqn:Hc in Hp; [| discriminate].
  injection Hp as <-.
  repeat (apply andb_true_iff in Hc as [Hc ?]).
  repeat match goal with H : (_ <=? _)%Z = true |- _ => apply Z.leb_le in H end.
  apply number_four in Hy as (y1 & y2 & y3 & y4 & ->).
  apply expect_inv in E1 as ->.
  apply number_two in Hm as (m1 & m2 & ? & ? & -> & _ & _ & _).
  apply expect_inv in E2 as ->.
  apply number_two in Hd as (d1 & d2 & ? & ? & -> & _ & _ & _).
  apply number_two in Hh as (h1 & h2 & dh1 & dh2 & -> & Hh1 & Hh2 & ->).
  apply expect_inv in E3 as ->.
  apply number_two in Hmi as (i1 & i2 & di1 & di2 & -> & Hi1 & Hi2 & ->).
  apply expect_inv in E4 as ->.
  apply number_two in Hs as (c1 & c2 & dc1 & dc2 & _ & Hc1 & Hc2 & ->).
  apply digit_range in Hi1, Hi2, Hc1, Hc2.
  pose proof (digit_range _ _ Hh1). pose proof (digit_range _ _ Hh2).
  rewrite hour_of_fields by lia.
  cbn [substring]. cbn [Datetime.number]. rewrite Hh1, Hh2. reflexivity.
Qed.

(** X14.  For a timestamp written [YYYY-MM-DDTHH:MM:SS] that pandas
    accepts, the hour the plotting functions put in the column [hour] is
    the number written by the two characters [HH] of the text. *)
Theorem hour_is_hour_field (other : pyval -> result (option Z))
    (s : string) (t : pyval) :
  Datetime.parse_iso8601 s <> None ->
  to_datetime_cell other (PStr s) = Ok t ->
  exists hh,
    Datetime.number 2 0 (substring 11 2 s) = Some (hh, "") /\
    dt_hour_cell t = Ok (PInt hh).
Proof.
  intros Hp Ht. simpl in Ht.
  destruct (Datetime.parse_iso8601 s) as [ns |] eqn:Hns; [| now destruct Hp].
  destruct (Datetime.in_bounds ns); [| discriminate].
  injection Ht as <-. exists (Datetime.hour ns).
  split; [now apply parse_iso8601_hour | reflexivity].
Qed.

Lemma hour_is_hour_field_witness :
  exists hh,
    Datetime.number 2 0 (substring 11 2 "2024-03-05T17:42:09") = Some (hh, "") /\
    dt_hour_cell (PTimestamp 1709660529000000000) = Ok (PInt hh).
Proof.
  apply (hour_is_hour_field (fun _ => Ok None) "2024-03-05T17:42:09").
  - vm_compute. discriminate.
  - vm_compute. reflexivity.
Defined.

(** ** The table built from the records *)

Lemma add_keys_in (keys seen : list string) (k : string) :
  In k (add_keys seen keys) <-> In k seen \/ In k keys.
Proof.
  revert seen. induction keys as [| k' keys IH]; intros seen; simpl.
  - tauto.
  - destruct (existsb (String.eqb k') seen) eqn:E; rewrite IH.
    + apply existsb_exists in E as (x & Hx & Heq).
      apply String.eqb_eq in Heq. subst x.
      split; [tauto |]. intros [H | [<- | H]]; tauto.
    + rewrite in_app_iff. simpl. tauto.
Qed.

Lemma add_keys_nodup (keys seen : list string) :
  NoDup seen -> NoDup (add_keys seen keys).
Proof.
  revert seen. induction keys as [| k' keys IH]; intros seen Hs; simpl.
  - exact Hs.
  - destruct (existsb (String.eqb k') seen) eqn:E; apply IH; [exact Hs |].
    apply NoDup_app; [exact Hs | repeat constructor; intros [] |].
    intros x Hx [-> | []].
    assert (existsb (String.eqb x) seen = true)
      by (apply existsb_exists; exists x; split;
          [exact Hx | apply String.eqb_refl]).
    congruence.
Qed.

Lemma fold_add_keys_in (records : list (list (string * pyval)))
    (seen : list string) (k : string) :
  In k (fold_left (fun seen rec => add_keys seen (map fst rec)) records seen)
  <-> In k seen \/ exists rec, In rec records /\ In k (map fst rec).
Proof.
  revert seen. induction records as [| rec records IH]; intros seen; simpl.
  - split; [tauto |]. intros [H | (rec & [] & _)]. exact H.
  - rewrite IH, add_keys_in. split.
    + intros [[H | H] | (r & Hr & H)].
      * now left.
      * right. exists rec. tauto.
      * right. exists r. tauto.
    + intros [H | (r & [<- | Hr] & H)].
      * tauto.
      * tauto.
      * right. exists r. tauto.
Qed.

Lemma fold_add_keys_nodup (records : list (list (string * pyval)))
    (seen : list string) :
  NoDup seen ->
  NoDup (fold_left (fun seen rec => add_keys seen (map fst rec)) records seen).
Proof.
  revert seen. induction records as [| rec records IH]; intros seen Hs; simpl.
  - exact Hs.
  - apply IH, add_keys_nodup, Hs.
Qed.

Lemma lookup_keyed_in {V : Type} (g : string -> V) (key : string)
    (keys : list string) :
  In key keys -> lookup key (map (fun k => (k, g k)) keys) = Some (g key).
Proof.
  induction keys as [| k keys IH]; simpl; [intros [] |].
  destruct (String.eqb_spec key k) as [-> | Hne]; [reflexivity |].
  intros [-> | H]; [now destruct Hne | now apply IH].
Qed.

Lemma lookup_in_keys {V : Type} (key : string) (items : list (string * V))
    (v : V) :
  lookup key items = Some v -> In key (map fst items).
Proof.
  induction items as [| [k x] items IH]; simpl; [discriminate |].
  destruct (String.eqb_spec key k) as [-> | _]; [now left |].
  intros H. right. now apply IH.
Qed.

Lemma cell_frame_of_records (infer : list pyval -> pyval -> pyval)
    (records : list (list (string * pyval)))
    (key : string) (i : nat) (rec : list (string * pyval)) :
  In key (record_keys records) -> nth_error records i = Some rec ->
  cell (frame_of_records infer records) key i =
    Some (cast_cell infer (map (cell_of key) records) (cell_of key rec)).
Proof.
  intros Hk Hi. unfold cell, frame_of_records. cbn [columns].
  rewrite (lookup_keyed_in
             (fun k => map (cast_cell infer (map (cell_of k) records))
                           (map (cell_of k) records))) by exact Hk.
  f_equal. apply nth_error_nth.
  rewrite !nth_error_map, Hi. reflexivity.
Qed.

(** X15.  When the [events] of the input document are an array of
    objects, the table [load_json_data] builds has one row for each
    object and one column for each field name that occurs in some
    object, none of them twice; where an object has a string for a
    field the cell of its row holds that string, and where it lacks the
    field the cell is NaN.  What a value that is not a string becomes
    depends on the dtype of its column and is not stated. *)
Theorem loaded_table_of_records (W : world)
    (records : list (list (string * pyval))) :
  input_events W = Some records ->
  exists df,
    loaded W = Ok df /\
    nrows df = List.length records /\
    NoDup (column_names df) /\
    (forall key,
       In key (column_names df) <->
       exists rec, In rec records /\ In key (map fst rec)) /\
    (forall i rec key text,
       nth_error records i = Some rec -> lookup key rec = Some (PStr text) ->
       cell df key i = Some (PStr text)) /\
    (forall i rec key,
       nth_error records i = Some rec -> In key (column_names df) ->
       lookup key rec = None -> cell df key i = Some PNaN).
Proof.
  intros H. exists (frame_of_records (infer_cell W) records).
  split; [now apply input_events_loaded |].
  split; [reflexivity |].
  rewrite column_names_frame_of_records.
  assert (Hkeys : forall key,
             In key (record_keys records) <->
             exists rec, In rec records /\ In key (map fst rec)).
  { intros key. unfold record_keys. rewrite fold_add_keys_in.
    simpl. tauto. }
  split; [apply fold_add_keys_nodup; constructor |].
  split; [exact Hkeys |]. split.
  - intros i rec key text Hi Hv.
    rewrite (cell_frame_of_records _ records key i rec).
    + unfold cell_of. now rewrite Hv.
    + apply Hkeys. exists rec. split.
      * eapply nth_error_In, Hi.
      * eapply lookup_in_keys, Hv.
    + exact Hi.
  - intros i rec key Hi Hk Hv.
    rewrite (cell_frame_of_records _ records key i rec Hk Hi).
    unfold cell_of. now rewrite Hv.
Qed.

Lemma loaded_table_of_records_witness :
  exists df,
    loaded ragged_world = Ok df /\ nrows df = 2 /\
    cell df "signature" 0 = Some (PStr "PORTSCAN detected on port 22") /\
    cell df "signature" 1 = Some PNaN.
Proof.
  destruct (input_events ragged_world) as [records |] eqn:H;
    [| vm_compute in H; discriminate H].
  destruct (loaded_table_of_records ragged_world records H)
    as (df & Hl & Hn & _ & Hk & Hs & Hm).
  assert (Hr : records = ragged_records)
    by (vm_compute in H; injection H as <-; reflexivity).
  subst records.
  exists df. split; [exact Hl |]. split; [exact Hn |]. split.
  - apply (Hs 0 _ "signature" _ eq_refl). reflexivity.
  - apply (Hm 1 _ "signature" eq_refl); [| reflexivity].
    apply Hk. eexists. split; [left; reflexivity | left; reflexivity].
Defined.

(** ** What is printed for each event type *)

Lemma forM__print {A : Type} (g : A -> output) (l : list A) (st : state) :
  forM_ l (fun a => print (g a)) st =
    (Ok tt, {| console := (console st ++ map g l)%list;
               files := files st; frame := frame st |}).
Proof.
  revert st. induction l as [| a l IH]; intros st; simpl.
  - rewrite app_nil_r. now destruct st.
  - unfold bind, print at 1. rewrite IH. cbn [console files frame].
    now rewrite <- app_assoc.
Qed.

Lemma examples_loop (signatures types labels : list pyval) (st : state) :
  getitem (frame st) "event_type" = Ok types ->
  getitem (frame st) "signature" = Ok signatures ->
  forM_ labels (fun event_type =>
    types <- get_column "event_type" ;;
    signatures <- get_column "signature" ;;
    print (Print [Lit nl; Val event_type; Lit ":"]) ;;
    forM_ (examples_of event_type signatures types) (fun ex =>
      print (Print [Lit "  - "; Val ex]))) st =
    (Ok tt, {| console :=
                 (console st ++ example_lines signatures types labels)%list;
               files := files st; frame := frame st |}).
Proof.
  intros Ht Hs. revert st Ht Hs.
  induction labels as [| l labels IH]; intros st Ht Hs; simpl.
  - rewrite app_nil_r. now destruct st.
  - unfold bind at 1. unfold bind at 1.
    unfold get_column at 1. unfold bind at 1, get_frame at 1.
    rewrite Ht. simpl lift. unfold ret at 1.
    unfold bind at 1. unfold get_column at 1. unfold bind at 1, get_frame at 1.
    rewrite Hs. simpl lift. unfold ret at 1.
    unfold bind at 1. unfold print at 1.
    rewrite forM__print. cbn [console files frame].
    rewrite IH by (cbn [frame]; assumption). cbn [console files frame].
    now rewrite <- !app_assoc.
Qed.

Lemma analyze_security_events_steps (W : world) (st : state) (df : DataFrame)
    (signatures types : list pyval) (counts : list (pyval * nat)) :
  loaded W = Ok df ->
  getitem df "signature" = Ok signatures ->
  mapM extract_event_type signatures = Ok types ->
  value_counts types = Ok counts ->
  analyze_security_events W filename st =
    (Ok counts,
     {| console :=
          (console st ++
           [Print [Lit "Первые 5 строк данных:"];
            PrintFrame (head df);
            Print [Lit rule];
            Print [Lit "Распределение типов событий:"];
            PrintCounts counts;
            Print [Lit rule];
            Print [Lit "Примеры signature для каждого типа:"]] ++
           example_lines signatures types (map fst counts))%list;
        files := files st;
        frame := setitem df "event_type" types |}).
Proof.
  intros Hl Hsig Htypes Hcounts.
  unfold analyze_security_events. rewrite (analyze_until_signature W _ df Hl).
  rewrite Hsig. simpl lift. erewrite bind_ret_l by reflexivity.
  rewrite Htypes. simpl lift. erewrite bind_ret_l by reflexivity.
  erewrite bind_ret_l by reflexivity.
  erewrite bind_ret_l
    by (unfold get_column, get_frame, bind; cbn [frame];
        rewrite getitem_setitem_same; reflexivity).
  rewrite Hcounts. simpl lift. erewrite bind_ret_l by reflexivity.
  do 4 (erewrite bind_ret_l by reflexivity).
  erewrite bind_ret_l
    by (apply (examples_loop signatures types); cbn [frame];
        [ apply getitem_setitem_same
        | rewrite getitem_setitem_other by discriminate; exact Hsig ]).
  unfold ret. cbn [console files frame]. rewrite <- !app_assoc. reflexivity.
Qed.

(** X6.  What [analyze_security_events] prints: after the head of the
    table and the frequency table, for each event type of the frequency
    table, in its order, a heading and then the examples.  The examples
    printed under a type are signatures of the table that the classifier
    gives this type, and there are as many of them as the type has
    events, up to two. *)
Theorem examples_belong_to_type (W : world) (st st' : state)
    (counts : list (pyval * nat)) :
  analyze_security_events W filename st = (Ok counts, st') ->
  exists df signatures types,
    loaded W = Ok df /\
    getitem (frame st') "signature" = Ok signatures /\
    getitem (frame st') "event_type" = Ok types /\
    console st' =
      (console st ++
       [Print [Lit "Первые 5 строк данных:"];
        PrintFrame (head df);
        Print [Lit rule];
        Print [Lit "Распределение типов событий:"];
        PrintCounts counts;
        Print [Lit rule];
        Print [Lit "Примеры signature для каждого типа:"]] ++
       flat_map (fun event_type =>
                   Print [Lit nl; Val event_type; Lit ":"] ::
                   map (fun ex => Print [Lit "  - "; Val ex])
                       (examples_of event_type signatures types))
                (map fst counts))%list /\
    forall l n, In (l, n) counts ->
      List.length (examples_of l signatures types) = Nat.min 2 n /\
      forall ex, In ex (examples_of l signatures types) ->
        In ex signatures /\ extract_event_type ex = Ok l.
Proof.
  intros H. pose proof H as H0.
  apply analyze_security_events_ok in H as (df & Hl & Hc & _).
  destruct (classified_column _ _ _ Hc) as (sigs & types & Hs & Ht & Hlen & Hstr & _).
  destruct Hc as (sigs' & types' & Hs' & Hm & Hv & Hf).
  rewrite Hs in Hs'. inversion Hs'; subst sigs'.
  rewrite Hf, getitem_setitem_same in Ht. inversion Ht; subst types'.
  exists df, sigs, types.
  split; [exact Hl |].
  split; [rewrite Hf, getitem_setitem_other by discriminate; exact Hs |].
  split; [rewrite Hf; apply getitem_setitem_same |].
  split.
  { rewrite (analyze_security_events_steps W st df sigs types counts
               Hl Hs Hm Hv) in H0.
    injection H0 as <-. reflexivity. }
  destruct (value_counts_strings types counts Hstr Hv) as (_ & Hin & _).
  intros l n Hl'. apply Hin in Hl' as [Hl' ->]. split.
  - unfold examples_of. rewrite length_firstn, length_map.
    rewrite (filter_combine_length (fun v => label_eqb v l)) by congruence.
    unfold occurrences. f_equal. f_equal. apply filter_ext.
    intros v. apply label_eqb_sym.
  - intros ex Hex. unfold examples_of in Hex. apply in_firstn in Hex.
    apply in_map_iff in Hex as ([ex' ty] & Hfst & Hex). simpl in Hfst. subst ex'.
    apply filter_In in Hex as [Hcomb Hty]. simpl in Hty.
    assert (Hstrl : is_str l = true)
      by (rewrite forallb_forall in Hstr; now apply Hstr).
    rewrite label_eqb_sym in Hty. apply (label_eqb_str l ty Hstrl) in Hty.
    subst ty. split; [now apply in_combine_l in Hcomb |].
    now apply (mapM_combine _ _ _ Hm).
Qed.

Lemma examples_belong_to_type_witness :
  exists st' counts df signatures types,
    analyze_security_events sample_world filename initial = (Ok counts, st') /\
    console st' =
      (console initial ++
       [Print [Lit "Первые 5 строк данных:"];
        PrintFrame (head df);
        Print [Lit rule];
        Print [Lit "Распределение типов событий:"];
        PrintCounts counts;
        Print [Lit rule];
        Print [Lit "Примеры signature для каждого типа:"]] ++
       flat_map (fun event_type =>
                   Print [Lit nl; Val event_type; Lit ":"] ::
                   map (fun ex => Print [Lit "  - "; Val ex])
                       (examples_of event_type signatures types))
                (map fst counts))%list.
Proof.
  destruct (analyze_security_events sample_world filename initial)
    as [[counts | e] st'] eqn:H.
  - destruct (examples_belong_to_type sample_world initial st' counts H)
      as (df & sigs & types & _ & _ & _ & Hcon & _).
    exists st', counts, df, sigs, types.
    split; [reflexivity | exact Hcon].
  - vm_compute in H. discriminate H.
Defined.

(** ** The table handed to [to_csv] *)

(** X16.  When the [events] array of the input is an array of objects
    and the run goes well, what [to_csv] is given to write under
    [processed_security_events.csv] has one row for each element of the
    array, each row with one cell for each name of the header, and the
    header holds [event_type], [hour] and every field name of the
    input. *)
Theorem exported_table_shape (W : world) (st' : state)
    (records : list (list (string * pyval))) :
  main_body W initial = (Ok tt, st') ->
  input_events W = Some records ->
  exists c,
    lookup "processed_security_events.csv" (files st') = Some (Csv c) /\
    List.length (rows c) = List.length records /\
    Forall (fun row => List.length row = List.length (header c)) (rows c) /\
    In "event_type" (header c) /\
    In "hour" (header c) /\
    (forall key, In key (record_keys records) -> In key (header c)).
Proof.
  intros H Hin. apply main_body_table in H
    as (df0 & Hl & Hcsv & Hn & _ & Hnames & _).
  apply input_events_loaded in Hin. rewrite Hin in Hl.
  inversion Hl; subst df0. clear Hl.
  exists (csv_of (frame st')). split; [exact Hcsv |].
  unfold csv_of. cbn [header rows].
  split; [now rewrite length_map, length_seq, Hn |].
  split.
  { apply Forall_map, Forall_forall. intros i _.
    unfold column_names. now rewrite !length_map. }
  split; [apply Hnames; tauto |]. split; [apply Hnames; tauto |].
  intros key Hkey. apply Hnames. do 3 right.
  now rewrite column_names_frame_of_records.
Qed.

Lemma exported_table_shape_witness :
  exists c,
    lookup "processed_security_events.csv" (files sample_final) = Some (Csv c) /\
    List.length (rows c) = 2 /\
    In "event_type" (header c) /\
    In "hour" (header c).
Proof.
  destruct (exported_table_shape sample_world sample_final _ sample_run eq_refl)
    as (c & Hc & Hn & _ & He & Hh & _).
  exists c. repeat split; assumption.
Defined.
